(** * js-part-0: refined run-time types and the test comparator

    A shallow embedding of [src/index.ts] (and of the one function of the
    older JavaScript file [src/unnamed/part_000] that differs from it in
    what it returns, [countRealTypes]).

    Layout: the run-time model ([Module JS]), the functions of
    [src/index.ts] ([Module IndexTs]), the diverging function of
    [src/unnamed/part_000] ([Module Part000]), then the theorems. *)

From Stdlib Require Import List String Ascii ZArith Bool Arith Lia.
From Stdlib Require Import Permutation Sorted DecimalString.
Import ListNotations.

Set Warnings "-register-all".

Local Open Scope string_scope.
Local Open Scope list_scope.

(** ** The run-time model *)

Module JS.

(** Errors a call can end with.  [TypeError] is what [ToString] raises on a
    symbol, and on a record that has no way to a primitive; [RangeError] is
    the engine's answer to an exhausted call stack.  [Unmodelled] is no
    error of the language: it ends a run that would have to call a function
    value (a [toString] or [valueOf] that a record has of its own), whose
    body the model does not have; no theorem speaks of such a run. *)
Inductive Error := TypeError | RangeError | Unmodelled.

(** The outcome of evaluating an expression: a value, or a thrown error. *)
Inductive Completion (A : Type) :=
| Normal (value : A)
| Throw (e : Error).

Arguments Normal {A} value.
Arguments Throw {A} e.

Definition bind {A B : Type} (c : Completion A) (k : A -> Completion B)
  : Completion B :=
  match c with
  | Normal value => k value
  | Throw e => Throw e
  end.

Notation "x <- c ;; k" := (bind c (fun x => k))
  (at level 61, c at next level, right associativity).

(** Numbers.  The finite ones are modelled by their integer values, which is
    what the collections of the test file hold (42, 123, 11 ...); the two
    infinities and the not-a-number sentinel are kept apart from them.
    [Finite z] is the number whose value is exactly [z]. *)
Inductive Number :=
| NaN
| Infinity (negative : bool)
| Finite (z : Z).

(** Values.  Symbols and functions carry the identity [===] compares; a
    function also carries its source text, a date the text [ToString] gives
    for it, a regular expression its source and flags.  A [VObject] is a
    record with its own enumerable string-keyed properties in [Object.keys]
    order; what it inherits is [Object.prototype] (see [get]). *)
Inductive Value :=
| VUndefined
| VNull
| VBoolean (b : bool)
| VNumber (n : Number)
| VString (s : string)
| VBigInt (z : Z)
| VSymbol (id : nat)
| VFunction (id : nat) (source : string)
| VArray (items : list Value)
| VObject (props : list (string * Value))
| VStringObject (s : string)
| VDate (text : string)
| VRegExp (source flags : string)
| VMap
| VSet
| VPromise.

(** The built-in constructors [getRealType] tests with [instanceof]. *)
Inductive Class := ClassDate | ClassMap | ClassSet | ClassPromise | ClassRegExp.

(** [typeof value] *)
Definition typeof (value : Value) : string :=
  match value with
  | VUndefined => "undefined"
  | VBoolean _ => "boolean"
  | VNumber _ => "number"
  | VString _ => "string"
  | VBigInt _ => "bigint"
  | VSymbol _ => "symbol"
  | VFunction _ _ => "function"
  | VNull | VArray _ | VObject _ | VStringObject _ | VDate _
  | VRegExp _ _ | VMap | VSet | VPromise => "object"
  end.

(** [value === null] *)
Definition is_null (value : Value) : bool :=
  match value with VNull => true | _ => false end.

(** [value === undefined] *)
Definition is_undefined (value : Value) : bool :=
  match value with VUndefined => true | _ => false end.

(** [Array.isArray(value)] *)
Definition Array_isArray (value : Value) : bool :=
  match value with VArray _ => true | _ => false end.

(** [Number.isNaN(value)]: false on everything that is not a number. *)
Definition Number_isNaN (value : Value) : bool :=
  match value with VNumber NaN => true | _ => false end.

(** [Number.isFinite(value)]: false on everything that is not a number. *)
Definition Number_isFinite (value : Value) : bool :=
  match value with VNumber (Finite _) => true | _ => false end.

(** [value instanceof C] *)
Definition instanceof (value : Value) (C : Class) : bool :=
  match value, C with
  | VDate _, ClassDate => true
  | VMap, ClassMap => true
  | VSet, ClassSet => true
  | VPromise, ClassPromise => true
  | VRegExp _ _, ClassRegExp => true
  | _, _ => false
  end.

Definition number_eqb (m n : Number) : bool :=
  match m, n with
  | Infinity s, Infinity t => Bool.eqb s t
  | Finite x, Finite y => Z.eqb x y
  | _, _ => false
  end.

(** [a === b].  No coercion; not-a-number differs from itself; symbols and
    functions are compared by identity.  Two object references would be
    compared by identity as well: the model keeps no addresses and answers
    [false] there, each object value standing for an allocation of its own
    ([[] !== []]).  [areEqual] never asks for it (lemma
    [strict_equal_only_off_objects]). *)
Definition strict_equal (a b : Value) : bool :=
  match a, b with
  | VUndefined, VUndefined => true
  | VNull, VNull => true
  | VBoolean x, VBoolean y => Bool.eqb x y
  | VNumber m, VNumber n => number_eqb m n
  | VString s, VString t => String.eqb s t
  | VBigInt x, VBigInt y => Z.eqb x y
  | VSymbol i, VSymbol j => Nat.eqb i j
  | VFunction i _, VFunction j _ => Nat.eqb i j
  | _, _ => false
  end.

(** An own property of [obj], if it has [key]. *)
Fixpoint lookup {A : Type} (obj : list (string * A)) (key : string)
  : option A :=
  match obj with
  | [] => None
  | (k, v) :: rest => if String.eqb k key then Some v else lookup rest key
  end.

(** [typeof value === 'function'] *)
Definition is_function (value : Value) : bool :=
  match value with VFunction _ _ => true | _ => false end.

Definition decimal (z : Z) : string := NilZero.string_of_int (Z.to_int z).

(** The digits of a number without the zeros it ends with. *)
Fixpoint significant (digits : string) : string :=
  match digits with
  | EmptyString => EmptyString
  | String d rest =>
      let rest' := significant rest in
      if String.eqb rest' "" && Ascii.eqb d "0" then EmptyString
      else String d rest'
  end.

(** [Number::toString] on an integer: its digits when there are at most 21
    of them, and from 1e21 on the significant digits, a point after the
    first, and the exponent. *)
Definition integer_text (z : Z) : string :=
  let digits := decimal (Z.abs z) in
  let n := String.length digits in
  if Nat.leb n 21 then decimal z
  else
    ((if Z.ltb z 0 then "-" else "")
     ++ match significant digits with
        | EmptyString => EmptyString
        | String d EmptyString => String d EmptyString
        | String d rest => String d ("." ++ rest)
        end
     ++ "e+" ++ decimal (Z.of_nat (n - 1)))%string.

Definition number_text (n : Number) : string :=
  match n with
  | NaN => "NaN"
  | Infinity false => "Infinity"
  | Infinity true => "-Infinity"
  | Finite z => integer_text z
  end.

(** [ToString(value)], as the default comparison of [sort] and [join] call
    it.  An array is its elements joined by commas, [undefined] and [null]
    elements giving the empty text; a symbol has no text.  A record is
    asked for its [toString], then for its [valueOf]: without a [toString]
    of its own it has the one of [Object.prototype]; with one that is not a
    function, and no [valueOf] of its own that is one, there is no way to a
    primitive (the [valueOf] of [Object.prototype] returns the record); a
    function of its own would have to be called. *)
Fixpoint toString (value : Value) : Completion string :=
  match value with
  | VUndefined => Normal "undefined"
  | VNull => Normal "null"
  | VBoolean b => Normal (if b then "true" else "false")
  | VNumber n => Normal (number_text n)
  | VString s => Normal s
  | VBigInt z => Normal (decimal z)
  | VSymbol _ => Throw TypeError
  | VFunction _ source => Normal source
  | VArray items =>
      texts <- (fix each (l : list Value) : Completion (list string) :=
                  match l with
                  | [] => Normal []
                  | x :: rest =>
                      s <- match x with
                           | VUndefined | VNull => Normal ""
                           | _ => toString x
                           end ;;
                      ss <- each rest ;;
                      Normal (s :: ss)
                  end) items ;;
      Normal (String.concat "," texts)
  | VObject props =>
      match lookup props "toString" with
      | None => Normal "[object Object]"
      | Some method =>
          if is_function method then Throw Unmodelled
          else
            match lookup props "valueOf" with
            | Some method' =>
                if is_function method' then Throw Unmodelled
                else Throw TypeError
            | None => Throw TypeError
            end
      end
  | VStringObject s => Normal s
  | VDate text => Normal text
  | VRegExp source flags => Normal ("/" ++ source ++ "/" ++ flags)%string
  | VMap => Normal "[object Map]"
  | VSet => Normal "[object Set]"
  | VPromise => Normal "[object Promise]"
  end.

(** Stable insertion by text: [x], which came before everything in [l],
    goes in front of the first entry whose text is not smaller. *)
Fixpoint insert_by_text {A : Type} (x : string * A) (l : list (string * A))
  : list (string * A) :=
  match l with
  | [] => [x]
  | y :: rest =>
      if String.leb (fst x) (fst y) then x :: l
      else y :: insert_by_text x rest
  end.

(** The stable sort by text (code-unit order) that [sort()] without a
    comparison function performs on the defined elements. *)
Fixpoint stable_sort {A : Type} (l : list (string * A)) : list (string * A) :=
  match l with
  | [] => []
  | x :: rest => insert_by_text x (stable_sort rest)
  end.

Fixpoint with_text (l : list Value) : Completion (list (string * Value)) :=
  match l with
  | [] => Normal []
  | x :: rest =>
      s <- toString x ;;
      keyed <- with_text rest ;;
      Normal ((s, x) :: keyed)
  end.

(** [items.sort()] on a copy: [undefined] elements go last without being
    converted; the others are ordered by their texts.  With fewer than two
    defined elements nothing is compared, so nothing is converted. *)
Definition sort (items : list Value) : Completion (list Value) :=
  let defined := filter (fun v => negb (is_undefined v)) items in
  let undefineds := filter is_undefined items in
  match defined with
  | [] | [_] => Normal (defined ++ undefineds)
  | _ =>
      keyed <- with_text defined ;;
      Normal (map snd (stable_sort keyed) ++ undefineds)
  end.

(** [l.every((value, index) => callback(value, index))], from [index] on:
    stops at the first [false], and at the first error. *)
Fixpoint every_from {A : Type} (callback : A -> nat -> Completion bool)
  (l : list A) (index : nat) : Completion bool :=
  match l with
  | [] => Normal true
  | value :: rest =>
      match callback value index with
      | Normal true => every_from callback rest (S index)
      | Normal false => Normal false
      | Throw e => Throw e
      end
  end.

Definition every {A : Type} (l : list A)
  (callback : A -> nat -> Completion bool) : Completion bool :=
  every_from callback l 0.

(** [l[index]] *)
Definition at_index (l : list Value) (index : nat) : Value :=
  nth index l VUndefined.

Fixpoint index_props_from (items : list Value) (index : nat)
  : list (string * Value) :=
  match items with
  | [] => []
  | x :: rest =>
      (decimal (Z.of_nat index), x) :: index_props_from rest (S index)
  end.

Fixpoint characters (s : string) : list Value :=
  match s with
  | EmptyString => []
  | String c rest => VString (String c EmptyString) :: characters rest
  end.

(** [{ ...value }] for an object [value]: its own enumerable string-keyed
    properties.  An array and a boxed string have their indices; dates,
    maps, sets, promises and regular expressions have none. *)
Definition spread (value : Value) : list (string * Value) :=
  match value with
  | VArray items => index_props_from items 0
  | VObject props => props
  | VStringObject s => index_props_from (characters s) 0
  | _ => []
  end.

(** [Object.keys(obj)] *)
Definition Object_keys {A : Type} (obj : list (string * A)) : list string :=
  map fst obj.

(** A function of the language itself. *)
Definition builtin (id : nat) (name : string) : Value :=
  VFunction id ("function " ++ name ++ "() { [native code] }")%string.

(** The function [Object]. *)
Definition Object_function : Value := builtin 1 "Object".

(** The properties of [Object.prototype], which every record and every
    copy [{ ...value }] inherits.  [__proto__] reads as [Object.prototype]
    itself, an object with no enumerable property of its own. *)
Definition Object_prototype : list (string * Value) :=
  [("constructor", Object_function);
   ("__defineGetter__", builtin 2 "__defineGetter__");
   ("__defineSetter__", builtin 3 "__defineSetter__");
   ("hasOwnProperty", builtin 4 "hasOwnProperty");
   ("__lookupGetter__", builtin 5 "__lookupGetter__");
   ("__lookupSetter__", builtin 6 "__lookupSetter__");
   ("isPrototypeOf", builtin 7 "isPrototypeOf");
   ("propertyIsEnumerable", builtin 8 "propertyIsEnumerable");
   ("toString", builtin 9 "toString");
   ("valueOf", builtin 10 "valueOf");
   ("__proto__", VObject []);
   ("toLocaleString", builtin 11 "toLocaleString")].

(** What a key that is no own property reads as. *)
Definition inherited (key : string) : Value :=
  match lookup Object_prototype key with
  | Some v => v
  | None => VUndefined
  end.

(** [obj[key]] on a copy [{ ...value }]: the own property, or else what
    [Object.prototype] has under that key, or else [undefined]. *)
Definition get (obj : list (string * Value)) (key : string) : Value :=
  match lookup obj key with
  | Some v => v
  | None => inherited key
  end.

(** [obj[key] = v]: an existing key keeps its place, a new one goes last. *)
Fixpoint assign {A : Type} (obj : list (string * A)) (key : string) (v : A)
  : list (string * A) :=
  match obj with
  | [] => [(key, v)]
  | (k, w) :: rest =>
      if String.eqb k key then (k, v) :: rest
      else (k, w) :: assign rest key v
  end.

(** [new Set(l)]: the elements of [l] in first-occurrence order. *)
Definition Set_add (s : list string) (x : string) : list string :=
  if existsb (String.eqb x) s then s else s ++ [x].

Definition new_Set (l : list string) : list string :=
  fold_left Set_add l [].

(** Nesting depth of a value: how deep [areEqual] can recurse into it. *)
Fixpoint depth (value : Value) : nat :=
  match value with
  | VArray items =>
      S ((fix deepest (l : list Value) : nat :=
            match l with
            | [] => 0
            | x :: rest => Nat.max (depth x) (deepest rest)
            end) items)
  | VObject props =>
      S ((fix deepest (l : list (string * Value)) : nat :=
            match l with
            | [] => 0
            | p :: rest => Nat.max (depth (snd p)) (deepest rest)
            end) props)
  | VStringObject _ => 1
  | _ => 0
  end.

(** What a call leaves on the console. *)
Inductive ConsoleCall :=
| console_log (text : string)
| console_error (text : string)
| console_debug (value : Value)
| console_group (text : string)
| console_groupEnd.

(** The line feed of a template literal. *)
Definition line_feed : string := String "010" EmptyString.

(** [typeof value === 'symbol'] *)
Definition is_symbol (value : Value) : bool :=
  match value with VSymbol _ => true | _ => false end.

(** [ok] holds of a value and of everything nested in it: the elements of
    an array, the property values of a record, and theirs. *)
Fixpoint all_parts (ok : Value -> bool) (value : Value) : bool :=
  ok value &&
  match value with
  | VArray items =>
      (fix each (l : list Value) : bool :=
         match l with
         | [] => true
         | x :: rest => all_parts ok x && each rest
         end) items
  | VObject props =>
      (fix each (l : list (string * Value)) : bool :=
         match l with
         | [] => true
         | p :: rest => all_parts ok (snd p) && each rest
         end) props
  | _ => true
  end.

(** [ToString] has a text for the value itself: it is no symbol, and no
    record with a [toString] of its own. *)
Definition has_text (value : Value) : bool :=
  match value with
  | VSymbol _ => false
  | VObject props =>
      match lookup props "toString" with
      | None => true
      | Some _ => false
      end
  | _ => true
  end.

(** No symbol and no record with a [toString] of its own anywhere in the
    value: what [sort] can convert. *)
Definition sortable (value : Value) : bool :=
  all_parts has_text value.

(** No not-a-number anywhere in the value. *)
Definition nan_free (value : Value) : bool :=
  all_parts (fun v => negb (Number_isNaN v)) value.

(** [l.sort()] on an array of strings, as a list of strings: the texts are
    the strings themselves. *)
Definition sort_strings (l : list string) : list string :=
  map snd (stable_sort (map (fun s => (s, s)) l)).

End JS.

(** ** The functions of [src/index.ts] *)

Module IndexTs.
Import JS.

(** [areEqual(a, b)] run with a call stack of [stack] frames.

    Both operands objects and neither [null]: two arrays are copied, sorted
    and compared position by position over the positions of [sortedA];
    anything else is copied into a record and compared key by key over the
    keys of [newA].  Every other pair of operands is compared with [===]. *)
Fixpoint areEqual_rec (stack : nat) (a b : Value) : Completion bool :=
  match stack with
  | O => Throw RangeError
  | S stack' =>
      if String.eqb (typeof a) "object" && String.eqb (typeof b) "object"
         && negb (is_null a) && negb (is_null b)
      then
        match a, b with
        | VArray itemsA, VArray itemsB =>
            sortedA <- sort itemsA ;;
            sortedB <- sort itemsB ;;
            every sortedA (fun value index =>
              areEqual_rec stack' value (at_index sortedB index))
        | _, _ =>
            let newA := spread a in
            let newB := spread b in
            every (Object_keys newA) (fun value _ =>
              areEqual_rec stack' (get newA value) (get newB value))
        end
      else Normal (strict_equal a b)
  end.

(** [areEqual(a, b)] on an engine whose stack is deep enough for [a]: the
    recursion descends into [a] only, so a stack one frame deeper than [a]
    is nested does not run out, and every deeper one gives the same run
    (lemma [areEqual_rec_enough]).  What a given stack does to operands
    nested as deep as it is, [areEqual_rec] says. *)
Definition areEqual (a b : Value) : Completion bool :=
  areEqual_rec (S (depth a)) a b.

Definition getType (value : Value) : string := typeof value.

Definition getTypesOfItems (arr : list Value) : list string :=
  map (fun value => getType value) arr.

(** [type !== typesArr[0]], with [typesArr[0]] absent on an empty array. *)
Definition differs_from (first : option string) (type : string) : bool :=
  match first with
  | Some t => negb (String.eqb type t)
  | None => true
  end.

Definition allItemsHaveTheSameType (arr : list Value) : bool :=
  let typesArr := getTypesOfItems arr in
  Nat.eqb (List.length (filter (differs_from (nth_error typesArr 0)) typesArr)) 0.

Definition getRealType (value : Value) : string :=
  if String.eqb (typeof value) "number" then
    if Number_isNaN value then "NaN"
    else if negb (Number_isFinite value) then "Infinity"
    else "number"
  else if String.eqb (typeof value) "object" then
    if Array_isArray value then "array"
    else if is_null value then "null"
    else if instanceof value ClassDate then "date"
    else if instanceof value ClassMap then "map"
    else if instanceof value ClassSet then "set"
    else if instanceof value ClassPromise then "promise"
    else if instanceof value ClassRegExp then "regexp"
    else typeof value
  else typeof value.

Definition getRealTypesOfItems (arr : list Value) : list string :=
  map (fun value => getRealType value) arr.

Definition everyItemHasAUniqueRealType (arr : list Value) : bool :=
  let typesArr := getRealTypesOfItems arr in
  Nat.eqb (List.length typesArr) (List.length (new_Set typesArr)).

(** [types[type] ?? 0] *)
Definition count_of (types : list (string * nat)) (type : string) : nat :=
  match lookup types type with
  | Some n => n
  | None => 0
  end.

(** [types[type] = (types[type] ?? 0) + 1] *)
Definition count_one (types : list (string * nat)) (type : string)
  : list (string * nat) :=
  assign types type (count_of types type + 1).

(** The [forEach] loop over [typesArr], starting from [types]. *)
Definition count_all (typesArr : list string) (types : list (string * nat))
  : list (string * nat) :=
  fold_left count_one typesArr types.

(** [countRealTypes(arr)]: [None] is the [null] of the empty array;
    otherwise the entries of [types], which [Object.entries] lists in the
    order the keys were first assigned (no label reads as an array index,
    the only keys that would be listed ahead of their turn). *)
Definition countRealTypes (arr : list Value) : option (list (string * nat)) :=
  if Nat.eqb (List.length arr) 0 then None
  else
    let types := [] in
    let typesArr := getRealTypesOfItems arr in
    let types := count_all typesArr types in
    Some types.

(** [testBlock(name)] *)
Definition testBlock (name : string) : list ConsoleCall :=
  [console_groupEnd; console_group ("# " ++ name ++ line_feed)%string].

(** [test(whatWeTest, actualResult, expectedResult)]: the console calls it
    makes; an error of [areEqual] passes through, nothing printed. *)
Definition test (whatWeTest : string) (actualResult expectedResult : Value)
  : Completion (list ConsoleCall) :=
  equal <- areEqual actualResult expectedResult ;;
  if equal then
    Normal [console_log ("[OK] " ++ whatWeTest ++ line_feed)%string]
  else
    Normal [console_error ("[FAIL] " ++ whatWeTest)%string;
            console_debug (VString "Expected:");
            console_debug expectedResult;
            console_debug (VString "Actual:");
            console_debug actualResult;
            console_log ""].

End IndexTs.

(** ** [countRealTypes] of [src/unnamed/part_000]

    The other functions of that file read as in [src/index.ts], up to the
    guard of [areEqual], which is not modelled here. *)

Module Part000.
Import JS.

(** What [countRealTypes] returns there: the number [0], or the entries. *)
Inductive Counted :=
| Zero
| Entries (entries : list (string * nat)).

(** [ToString] of an entry [[type, count]]: the two joined by a comma. *)
Definition entry_text (entry : string * nat) : string :=
  (fst entry ++ "," ++ integer_text (Z.of_nat (snd entry)))%string.

(** [entries.sort()]: no comparison function, so by the entries' texts. *)
Definition sort_entries (entries : list (string * nat))
  : list (string * nat) :=
  map snd (stable_sort (map (fun entry => (entry_text entry, entry)) entries)).

Definition countRealTypes (arr : list Value) : Counted :=
  if Nat.eqb (List.length arr) 0 then Zero
  else
    let types := [] in
    let typesArr := IndexTs.getRealTypesOfItems arr in
    let types := IndexTs.count_all typesArr types in
    let entries := types in
    Entries (sort_entries entries).

End Part000.

(** ** Results as values

    What the test harness hands to [areEqual]: a table is an array of
    two-element arrays. *)

Definition entry_value (entry : string * nat) : JS.Value :=
  JS.VArray [JS.VString (fst entry);
             JS.VNumber (JS.Finite (Z.of_nat (snd entry)))].

Definition table_value (entries : list (string * nat)) : JS.Value :=
  JS.VArray (map entry_value entries).

Definition ts_value (result : option (list (string * nat))) : JS.Value :=
  match result with
  | None => JS.VNull
  | Some entries => table_value entries
  end.

Definition js_value (result : Part000.Counted) : JS.Value :=
  match result with
  | Part000.Zero => JS.VNumber (JS.Finite 0)
  | Part000.Entries entries => table_value entries
  end.

Import JS.

(** A finite number, as the examples write it. *)
Definition num (z : Z) : Value := VNumber (Finite z).

(** The sum of the counts of a table. *)
Definition total (entries : list (string * nat)) : nat :=
  list_sum (map snd entries).

(** A table in ascending order of its labels, code unit by code unit. *)
Definition label_lt (e1 e2 : string * nat) : Prop :=
  String.compare (fst e1) (fst e2) = Lt.

Definition sorted_by_label (entries : list (string * nat)) : Prop :=
  StronglySorted label_lt entries.

(** The labels [getRealType] can return. *)
Definition real_types : list string :=
  ["NaN"; "Infinity"; "number"; "array"; "null"; "date"; "map"; "set";
   "promise"; "regexp"; "object"; "undefined"; "boolean"; "string";
   "bigint"; "symbol"; "function"].

(** Two texts that part ways at a position both have: neither is the start
    of the other. *)
Fixpoint diverge (s1 s2 : string) : bool :=
  match s1, s2 with
  | String c1 r1, String c2 r2 =>
      if Ascii.eqb c1 c2 then diverge r1 r2 else true
  | _, _ => false
  end.

(** The decision policy of the specification (4.1) as it words it: an
    ordered list of rules, a condition and the label it gives, to be set
    against [IndexTs.getRealType]. *)
Definition decision_policy : list ((Value -> bool) * string) :=
  [ (fun v => String.eqb (typeof v) "number" && Number_isNaN v, "NaN");
    (fun v => String.eqb (typeof v) "number" && negb (Number_isFinite v),
     "Infinity");
    (fun v => String.eqb (typeof v) "number", "number");
    (fun v => String.eqb (typeof v) "object" && Array_isArray v, "array");
    (fun v => String.eqb (typeof v) "object" && is_null v, "null");
    (fun v => String.eqb (typeof v) "object" && instanceof v ClassDate,
     "date");
    (fun v => String.eqb (typeof v) "object" && instanceof v ClassMap, "map");
    (fun v => String.eqb (typeof v) "object" && instanceof v ClassSet, "set");
    (fun v => String.eqb (typeof v) "object" && instanceof v ClassPromise,
     "promise");
    (fun v => String.eqb (typeof v) "object" && instanceof v ClassRegExp,
     "regexp");
    (fun v => String.eqb (typeof v) "object", "object") ].

(** First match wins: the label of the first rule whose condition holds,
    and [otherwise] when none does. *)
Fixpoint first_match (rules : list ((Value -> bool) * string)) (v : Value)
  (otherwise : string) : string :=
  match rules with
  | [] => otherwise
  | (condition, label) :: later =>
      if condition v then label else first_match later v otherwise
  end.

(** ** Facts about the run-time model *)

Lemma bind_normal {A B : Type} (c : Completion A) (k : A -> Completion B)
  (r : B) :
  bind c k = Normal r -> exists x, c = Normal x /\ k x = Normal r.
Proof.
  destruct c as [x|e]; simpl; intros H; [eauto | discriminate].
Qed.

Lemma every_from_ext {A : Type} (f g : A -> nat -> Completion bool)
  (l : list A) :
  (forall x j, In x l -> f x j = g x j) ->
  forall i, every_from f l i = every_from g l i.
Proof.
  induction l as [|x l IH]; intros Hfg i; simpl; [reflexivity|].
  rewrite (Hfg x i (or_introl eq_refl)).
  destruct (g x i) as [[|]|e]; try reflexivity.
  apply IH. intros y j Hy. apply Hfg. now right.
Qed.

(** [every] answers [true] exactly when the callback does at each element. *)
Lemma every_from_true {A : Type} (f : A -> nat -> Completion bool)
  (l : list A) :
  forall i,
    every_from f l i = Normal true <->
    (forall k x, nth_error l k = Some x -> f x (i + k) = Normal true).
Proof.
  induction l as [|x l IH]; intros i; simpl.
  - split; [|reflexivity]. intros _ [|k] y; discriminate.
  - split.
    + intros H [|k] y Hk; simpl in Hk.
      * injection Hk as <-. rewrite Nat.add_0_r.
        destruct (f x i) as [[|]|e]; congruence.
      * destruct (f x i) as [[|]|e]; try discriminate.
        rewrite <- Nat.add_succ_comm. now apply (proj1 (IH (S i)) H).
    + intros H. generalize (H 0 x eq_refl). rewrite Nat.add_0_r.
      intros ->. apply IH. intros k y Hk.
      rewrite Nat.add_succ_comm. now apply (H (S k)).
Qed.

Lemma insert_by_text_perm {A : Type} (x : string * A) (l : list (string * A)) :
  Permutation (insert_by_text x l) (x :: l).
Proof.
  induction l as [|y l IH]; simpl; [reflexivity|].
  destruct (String.leb (fst x) (fst y)); [reflexivity|].
  rewrite IH. apply perm_swap.
Qed.

Lemma stable_sort_perm {A : Type} (l : list (string * A)) :
  Permutation (stable_sort l) l.
Proof.
  induction l as [|x l IH]; simpl; [reflexivity|].
  rewrite insert_by_text_perm. now constructor.
Qed.

Lemma with_text_snd (l : list Value) (keyed : list (string * Value)) :
  with_text l = Normal keyed -> map snd keyed = l.
Proof.
  revert keyed. induction l as [|x l IH]; simpl; intros keyed H.
  - now injection H as <-.
  - apply bind_normal in H as (s & _ & H).
    apply bind_normal in H as (rest & Hrest & H).
    injection H as <-. simpl. f_equal. now apply IH.
Qed.

Lemma filter_split_perm {A : Type} (p : A -> bool) (l : list A) :
  Permutation (filter (fun v => negb (p v)) l ++ filter p l) l.
Proof.
  induction l as [|x l IH]; simpl; [reflexivity|].
  destruct (p x); simpl.
  - rewrite <- Permutation_middle. now constructor.
  - now constructor.
Qed.

(** [sort] only reorders. *)
Lemma sort_perm (items sorted : list Value) :
  sort items = Normal sorted -> Permutation sorted items.
Proof.
  unfold sort. intros H.
  rewrite <- (filter_split_perm is_undefined items).
  destruct (filter (fun v => negb (is_undefined v)) items) as [|x [|y l]] eqn:E.
  - now injection H as <-.
  - now injection H as <-.
  - apply bind_normal in H as (keyed & Hk & H). injection H as <-.
    apply Permutation_app_tail. rewrite <- (with_text_snd _ _ Hk).
    apply Permutation_map, stable_sort_perm.
Qed.

(** ** The stack [areEqual] needs *)

Lemma depth_item (items : list Value) (x : Value) :
  In x items -> depth x < depth (VArray items).
Proof.
  induction items as [|y items IH]; [intros []|].
  intros [<-|H]; [simpl; lia|].
  specialize (IH H). simpl in *. lia.
Qed.

Lemma depth_prop (props : list (string * Value)) (p : string * Value) :
  In p props -> depth (snd p) < depth (VObject props).
Proof.
  induction props as [|q props IH]; [intros []|].
  intros [<-|H]; [simpl; lia|].
  specialize (IH H). simpl in *. lia.
Qed.

Lemma lookup_In {A : Type} (obj : list (string * A)) (key : string) (v : A) :
  lookup obj key = Some v -> In (key, v) obj.
Proof.
  induction obj as [|[k w] obj IH]; simpl; [discriminate|].
  destruct (String.eqb_spec k key) as [->|_]; intros H.
  - injection H as <-. now left.
  - right. now apply IH.
Qed.

Lemma lookup_key {A : Type} (obj : list (string * A)) (key : string) :
  In key (Object_keys obj) -> exists v, lookup obj key = Some v.
Proof.
  induction obj as [|[k w] obj IH]; simpl; [tauto|].
  destruct (String.eqb_spec k key) as [->|Hne]; [eauto|].
  intros [H|H]; [contradiction | now apply IH].
Qed.

Lemma index_props_from_In (items : list Value) (i : nat) (p : string * Value) :
  In p (index_props_from items i) -> In (snd p) items.
Proof.
  revert i. induction items as [|x items IH]; simpl; intros i; [tauto|].
  intros [<-|H]; [now left | right; eauto].
Qed.

Lemma characters_flat (s : string) (x : Value) :
  In x (characters s) -> depth x = 0.
Proof.
  induction s as [|c s IH]; simpl; [tauto|].
  intros [<-|H]; [reflexivity | now apply IH].
Qed.

(** Every property [areEqual] reads off [newA] is nested less deeply. *)
Lemma depth_spread (a : Value) (p : string * Value) :
  In p (spread a) -> depth (snd p) < depth a.
Proof.
  destruct a; simpl spread; try (intros []).
  - intros H. apply depth_item. now apply index_props_from_In in H.
  - apply depth_prop.
  - intros H. apply index_props_from_In, characters_flat in H.
    rewrite H. simpl. lia.
Qed.

Lemma depth_get (a : Value) (key : string) :
  In key (Object_keys (spread a)) -> depth (get (spread a) key) < depth a.
Proof.
  intros H. apply lookup_key in H as (v & Hv). unfold get. rewrite Hv.
  apply lookup_In in Hv. now apply (depth_spread a (key, v)).
Qed.

(** Two stacks that are both deep enough give the same run. *)
Lemma areEqual_rec_stack (s1 : nat) :
  forall (s2 : nat) (a b : Value),
    depth a < s1 -> depth a < s2 ->
    IndexTs.areEqual_rec s1 a b = IndexTs.areEqual_rec s2 a b.
Proof.
  induction s1 as [|s1 IH]; intros [|s2] a b H1 H2; try lia.
  assert (Hrecord :
    every (Object_keys (spread a)) (fun value _ =>
      IndexTs.areEqual_rec s1 (get (spread a) value) (get (spread b) value))
    = every (Object_keys (spread a)) (fun value _ =>
      IndexTs.areEqual_rec s2 (get (spread a) value) (get (spread b) value))).
  { apply every_from_ext. intros k _ Hk. apply depth_get in Hk.
    apply IH; lia. }
  cbn [IndexTs.areEqual_rec].
  destruct (_ && _); [|reflexivity].
  destruct a; try exact Hrecord. destruct b; try exact Hrecord.
  destruct (sort items) as [sortedA|e] eqn:EA; [|reflexivity].
  destruct (sort items0) as [sortedB|e]; [|reflexivity].
  cbn [bind]. apply every_from_ext. intros x j Hx.
  apply (Permutation_in _ (sort_perm _ _ EA)), depth_item in Hx.
  apply IH; lia.
Qed.

(** Enough stack gives the result of [areEqual]. *)
Lemma areEqual_rec_enough (stack : nat) (a b : Value) :
  depth a < stack -> IndexTs.areEqual_rec stack a b = IndexTs.areEqual a b.
Proof.
  intros H. apply areEqual_rec_stack; [assumption | lia].
Qed.

(** [areEqual] as the source reads, the recursive calls being [areEqual]
    again. *)
Lemma areEqual_unfold (a b : Value) :
  IndexTs.areEqual a b =
  if String.eqb (typeof a) "object" && String.eqb (typeof b) "object"
     && negb (is_null a) && negb (is_null b)
  then
    match a, b with
    | VArray itemsA, VArray itemsB =>
        sortedA <- sort itemsA ;;
        sortedB <- sort itemsB ;;
        every sortedA (fun value index =>
          IndexTs.areEqual value (at_index sortedB index))
    | _, _ =>
        every (Object_keys (spread a)) (fun value _ =>
          IndexTs.areEqual (get (spread a) value) (get (spread b) value))
    end
  else Normal (strict_equal a b).
Proof.
  assert (Hrecord :
    every (Object_keys (spread a)) (fun value _ =>
      IndexTs.areEqual_rec (depth a) (get (spread a) value)
        (get (spread b) value))
    = every (Object_keys (spread a)) (fun value _ =>
      IndexTs.areEqual (get (spread a) value) (get (spread b) value))).
  { apply every_from_ext. intros k _ Hk.
    apply areEqual_rec_enough, depth_get, Hk. }
  unfold IndexTs.areEqual at 1. cbn [IndexTs.areEqual_rec].
  destruct (_ && _); [|reflexivity].
  destruct a; try exact Hrecord. destruct b; try exact Hrecord.
  destruct (sort items) as [sortedA|e] eqn:EA; [|reflexivity].
  destruct (sort items0) as [sortedB|e]; [|reflexivity].
  cbn [bind]. apply every_from_ext. intros x j Hx.
  apply areEqual_rec_enough, depth_item.
  exact (Permutation_in _ (sort_perm _ _ EA) Hx).
Qed.

Lemma every_from_throw {A : Type} (f : A -> nat -> Completion bool)
  (l : list A) (e : Error) :
  forall i, every_from f l i = Throw e ->
            exists x j, In x l /\ f x j = Throw e.
Proof.
  induction l as [|x l IH]; intros i; simpl; [discriminate|].
  destruct (f x i) as [[|]|e'] eqn:E; intros H.
  - apply IH in H as (y & j & Hy & H). exists y, j. split; [now right | exact H].
  - discriminate.
  - injection H as <-. exists x, i. split; [now left | exact E].
Qed.

(** [ToString] does not raise a [RangeError]. *)
Lemma toString_error (bound : nat) :
  forall (value : Value) (e : Error),
    depth value < bound -> toString value = Throw e -> e <> RangeError.
Proof.
  induction bound as [|bound IH]; intros value e Hd; [lia|].
  destruct value; simpl; try discriminate.
  - intros H. now injection H as <-.
  - assert (Hitems : forall x, In x items -> depth x < bound).
    { intros x Hx. apply depth_item in Hx. lia. }
    clear Hd. induction items as [|x items IHitems]; [discriminate|].
    cbn [bind].
    assert (Hx : (match x with
                  | VUndefined | VNull => Normal ""
                  | _ => toString x
                  end) = Throw e -> e <> RangeError).
    { destruct x; try discriminate;
        apply IH; apply Hitems; now left. }
    destruct (match x with VUndefined | VNull => Normal "" | _ => toString x end)
      as [s|e']; [|intros H; apply Hx; exact H].
    cbn [bind]. intros H. apply IHitems.
    + intros y Hy. apply Hitems. now right.
    + destruct ((fix each (l : list Value) : Completion (list string) := _) items);
        [discriminate | exact H].
  - destruct (lookup props "toString") as [method|]; [|discriminate].
    destruct (is_function method);
      [intros H; injection H as <-; discriminate|].
    destruct (lookup props "valueOf") as [method'|];
      [destruct (is_function method')|];
      intros H; injection H as <-; discriminate.
Qed.

Lemma with_text_error (l : list Value) (e : Error) :
  with_text l = Throw e -> e <> RangeError.
Proof.
  induction l as [|x l IH]; simpl; [discriminate|].
  destruct (toString x) as [s|e'] eqn:E; cbn [bind].
  - destruct (with_text l); cbn [bind]; [discriminate | exact IH].
  - intros H. injection H as <-.
    exact (toString_error (S (depth x)) x e' (Nat.lt_succ_diag_r _) E).
Qed.

Lemma sort_error (items : list Value) (e : Error) :
  sort items = Throw e -> e <> RangeError.
Proof.
  unfold sort.
  destruct (filter (fun v => negb (is_undefined v)) items) as [|x [|y l]];
    try discriminate.
  destruct (with_text (x :: y :: l)) eqn:E; cbn [bind]; [discriminate|].
  intros H. injection H as <-. exact (with_text_error _ _ E).
Qed.

(** With a stack deeper than [a], [areEqual_rec] does not run out of it. *)
Lemma areEqual_rec_no_overflow (stack : nat) :
  forall a b : Value,
    depth a < stack -> IndexTs.areEqual_rec stack a b <> Throw RangeError.
Proof.
  induction stack as [|stack IH]; intros a b Hd; [lia|].
  assert (Hrecord :
    every (Object_keys (spread a)) (fun value _ =>
      IndexTs.areEqual_rec stack (get (spread a) value) (get (spread b) value))
    <> Throw RangeError).
  { intros H. apply every_from_throw in H as (k & j & Hk & H).
    apply depth_get in Hk. revert H. apply IH. lia. }
  cbn [IndexTs.areEqual_rec].
  destruct (_ && _); [|discriminate].
  destruct a; try exact Hrecord. destruct b; try exact Hrecord.
  destruct (sort items) as [sortedA|e] eqn:EA; cbn [bind].
  - destruct (sort items0) as [sortedB|e] eqn:EB; cbn [bind].
    + intros H. apply every_from_throw in H as (x & j & Hx & H).
      apply (Permutation_in _ (sort_perm _ _ EA)), depth_item in Hx.
      revert H. apply IH. lia.
    + intros H. injection H as ->. now apply sort_error in EB.
  - intros H. injection H as ->. now apply sort_error in EA.
Qed.

(** [areEqual] never ends for want of stack: it returns, or ends where
    [sort] could not convert an element. *)
Lemma areEqual_never_overflows (a b : Value) :
  IndexTs.areEqual a b <> Throw RangeError.
Proof.
  apply areEqual_rec_no_overflow. lia.
Qed.

(** ** [areEqual] on arrays and records *)

(** Against anything that is not an object, and against [null], [areEqual]
    is [===]. *)
Lemma areEqual_off_objects (a b : Value) :
  typeof b <> "object" \/ b = VNull ->
  IndexTs.areEqual a b = Normal (strict_equal a b).
Proof.
  intros H. rewrite areEqual_unfold.
  destruct H as [H| ->].
  - destruct (String.eqb_spec (typeof b) "object") as [E|_]; [contradiction|].
    now rewrite andb_false_r.
  - simpl. now rewrite !andb_false_r.
Qed.

(** [===] is asked only when one operand is not an object or is [null]. *)
Lemma strict_equal_only_off_objects (a b : Value) :
  String.eqb (typeof a) "object" && String.eqb (typeof b) "object"
  && negb (is_null a) && negb (is_null b) = false ->
  (typeof a <> "object" \/ a = VNull) \/ (typeof b <> "object" \/ b = VNull).
Proof.
  destruct a; simpl; try (left; left; discriminate); try (left; now right);
    destruct b; simpl; try (right; left; discriminate);
    try (right; now right); discriminate.
Qed.

Lemma strict_equal_array (items : list Value) (b : Value) :
  strict_equal (VArray items) b = false.
Proof. reflexivity. Qed.

Lemma every_from_pure {A : Type} (f : A -> nat -> Completion bool)
  (g : A -> bool) (l : list A) :
  (forall x j, In x l -> f x j = Normal (g x)) ->
  forall i, every_from f l i = Normal (forallb g l).
Proof.
  induction l as [|x l IH]; intros Hf i; simpl; [reflexivity|].
  rewrite (Hf x i (or_introl eq_refl)).
  destruct (g x); simpl; [|reflexivity].
  apply IH. intros y j Hy. apply Hf. now right.
Qed.

Lemma positions_Forall2 {A B : Type} (P : A -> B -> Prop) (d : B)
  (l1 : list A) :
  forall l2 : list B,
    List.length l1 = List.length l2 ->
    ((forall k x, nth_error l1 k = Some x -> P x (nth k l2 d)) <->
     Forall2 P l1 l2).
Proof.
  induction l1 as [|x l1 IH]; intros [|y l2] Hlen; try discriminate.
  - split; [constructor | intros _ [|k] z; discriminate].
  - injection Hlen as Hlen. split.
    + intros H. constructor; [exact (H 0 x eq_refl)|].
      apply (IH l2 Hlen). intros k z Hk. exact (H (S k) z Hk).
    + intros H. inversion H as [|? ? ? ? Hxy Hrest]; subst.
      intros [|k] z Hk; simpl in Hk.
      * now injection Hk as <-.
      * simpl. now apply (proj2 (IH l2 Hlen) Hrest).
Qed.

Lemma sort_length (items sorted : list Value) :
  sort items = Normal sorted -> List.length sorted = List.length items.
Proof.
  intros H. exact (Permutation_length (sort_perm _ _ H)).
Qed.

(** Two arrays of one length: equal when, both sorted, they agree at every
    position. *)
Lemma areEqual_arrays_same_length (itemsA itemsB : list Value) :
  List.length itemsB = List.length itemsA ->
  (IndexTs.areEqual (VArray itemsA) (VArray itemsB) = Normal true <->
   exists sortedA sortedB,
     sort itemsA = Normal sortedA /\ sort itemsB = Normal sortedB /\
     Forall2 (fun x y => IndexTs.areEqual x y = Normal true) sortedA sortedB).
Proof.
  intros Hlen. rewrite areEqual_unfold. cbn [typeof is_null String.eqb
    Ascii.eqb Bool.eqb andb negb].
  split.
  - intros H. apply bind_normal in H as (sortedA & HA & H).
    apply bind_normal in H as (sortedB & HB & H).
    exists sortedA, sortedB. repeat split; try assumption.
    apply (positions_Forall2 _ VUndefined).
    + rewrite (sort_length _ _ HA), (sort_length _ _ HB). now symmetry.
    + exact (proj1 (every_from_true _ _ 0) H).
  - intros (sortedA & sortedB & HA & HB & H). rewrite HA, HB. cbn [bind].
    assert (Hlen' : List.length sortedA = List.length sortedB).
    { rewrite (sort_length _ _ HA), (sort_length _ _ HB). now symmetry. }
    apply every_from_true. intros k x Hk.
    exact (proj2 (positions_Forall2 _ VUndefined _ _ Hlen') H k x Hk).
Qed.

(** The scenario next to it in the specification: order is ignored. *)
Example areEqual_reordered :
  IndexTs.areEqual (VArray [num 1; num 2; num 3])
                   (VArray [num 3; num 2; num 1]) = Normal true.
Proof. reflexivity. Qed.

(** The longer array first: the third position meets [undefined]. *)
Example areEqual_longer_first :
  IndexTs.areEqual (VArray [num 1; num 2; num 3])
                   (VArray [num 1; num 2]) = Normal false.
Proof. reflexivity. Qed.

(** C1.  [areEqual([1, 2], [1, 2, 3])] is [true], not [false]: [every] runs
    over the two positions of the sorted first array only, and the lengths
    are never compared. *)
Theorem areEqual_prefix_array :
  IndexTs.areEqual (VArray [num 1; num 2])
                   (VArray [num 1; num 2; num 3]) = Normal true.
Proof. reflexivity. Qed.

(** C4 as stated fails: the empty array compares equal to the empty record,
    which is not an array. *)
Lemma areEqual_array_against_record :
  ~ (IndexTs.areEqual (VArray []) (VObject []) = Normal true ->
     Array_isArray (VObject []) = true).
Proof.
  intros H. discriminate (H eq_refl).
Qed.

(** C4, amended.  With an array [a] first and a [b] that is not an object,
    is [null], or is an array of the same length: [areEqual(a, b)] returns
    [true] exactly when [b] is an array and the two, each sorted by the
    default ordering, are recursively equal at every position.  So [a] never
    equals a primitive, [undefined] or [null]: there the answer is
    [false]. *)
Theorem areEqual_array_first (itemsA : list Value) (b : Value) :
  (typeof b <> "object" \/ b = VNull \/
   exists itemsB, b = VArray itemsB /\
                  List.length itemsB = List.length itemsA) ->
  (IndexTs.areEqual (VArray itemsA) b = Normal true <->
   exists itemsB sortedA sortedB,
     b = VArray itemsB /\
     sort itemsA = Normal sortedA /\ sort itemsB = Normal sortedB /\
     Forall2 (fun x y => IndexTs.areEqual x y = Normal true) sortedA sortedB)
  /\
  (Array_isArray b = false -> IndexTs.areEqual (VArray itemsA) b = Normal false).
Proof.
  intros [H|[H|(itemsB & -> & Hlen)]].
  - rewrite areEqual_off_objects by now left. split; [|reflexivity].
    split; [discriminate|].
    intros (itemsB & _ & _ & -> & _). now elim H.
  - rewrite areEqual_off_objects by now right. split; [|reflexivity].
    split; [discriminate|].
    intros (itemsB & _ & _ & -> & _). discriminate.
  - split; [|discriminate].
    rewrite (areEqual_arrays_same_length _ _ Hlen). split.
    + intros (sortedA & sortedB & H). now exists itemsB, sortedA, sortedB.
    + intros (itemsB' & sortedA & sortedB & E & H). injection E as <-.
      now exists sortedA, sortedB.
Qed.

Lemma areEqual_array_first_witness :
  (IndexTs.areEqual (VArray [num 1; num 2; num 3])
                    (VArray [num 3; num 2; num 1]) = Normal true <->
   exists itemsB sortedA sortedB,
     VArray [num 3; num 2; num 1] = VArray itemsB /\
     sort [num 1; num 2; num 3] = Normal sortedA /\
     sort itemsB = Normal sortedB /\
     Forall2 (fun x y => IndexTs.areEqual x y = Normal true) sortedA sortedB)
  /\
  (Array_isArray (VArray [num 3; num 2; num 1]) = false ->
   IndexTs.areEqual (VArray [num 1; num 2; num 3])
                    (VArray [num 3; num 2; num 1]) = Normal false).
Proof.
  apply (areEqual_array_first [num 1; num 2; num 3]
           (VArray [num 3; num 2; num 1])).
  right. right. exists [num 3; num 2; num 1]. split; reflexivity.
Defined.

(** ** What a copy inherits *)

Lemma every_from_returns {A : Type} (f : A -> nat -> Completion bool)
  (l : list A) :
  (forall x j, In x l -> exists r, f x j = Normal r) ->
  forall i, exists r, every_from f l i = Normal r.
Proof.
  induction l as [|x l IH]; intros Hf i; simpl; [eauto|].
  destruct (Hf x i (or_introl eq_refl)) as ([|] & ->); [|eauto].
  apply IH. intros y j Hy. apply Hf. now right.
Qed.

Lemma every_from_found_false {A : Type} (f : A -> nat -> Completion bool)
  (l : list A) (x : A) :
  (forall y j, In y l -> exists r, f y j = Normal r) ->
  In x l -> (forall j, f x j = Normal false) ->
  forall i, every_from f l i = Normal false.
Proof.
  induction l as [|y l IH]; intros Hall Hx Hfalse i; [destruct Hx|].
  simpl. destruct (Hall y i (or_introl eq_refl)) as ([|] & Hr); rewrite Hr;
    [|reflexivity].
  destruct Hx as [->|Hx].
  - rewrite Hfalse in Hr. discriminate.
  - apply IH; [|exact Hx | exact Hfalse]. intros z j Hz. apply Hall. now right.
Qed.

Lemma inherited_cases (key : string) :
  inherited key = VUndefined \/
  (exists id source, inherited key = VFunction id source) \/
  inherited key = VObject [].
Proof.
  unfold inherited.
  destruct (lookup Object_prototype key) as [v|] eqn:E; [|now left].
  right. apply lookup_In in E.
  assert (Hall : Forall (fun p => is_function (snd p) = true \/
                                  snd p = VObject []) Object_prototype).
  { unfold Object_prototype.
    repeat (constructor; [first [left; reflexivity | right; reflexivity]|]).
    constructor. }
  rewrite Forall_forall in Hall. destruct (Hall _ E) as [H|H]; simpl in H.
  - left. destruct v; try discriminate. eauto.
  - now right.
Qed.

(** Against the empty record each key of [a] meets what [Object.prototype]
    has under it, or [undefined]. *)
Lemma get_empty (key : string) : get (spread (VObject [])) key = inherited key.
Proof. reflexivity. Qed.

(** Against something inherited, or [undefined], [areEqual_rec] returns:
    nothing is sorted. *)
Lemma areEqual_rec_against_inherited (stack : nat) :
  forall (x : Value) (key : string),
    depth x < stack ->
    exists r, IndexTs.areEqual_rec stack x (inherited key) = Normal r.
Proof.
  induction stack as [|stack IH]; intros x key Hd; [lia|].
  destruct (inherited_cases key) as [->|[(id & source & ->)| ->]].
  - cbn. rewrite andb_false_r. cbn. eauto.
  - cbn. rewrite andb_false_r. cbn. eauto.
  - assert (Hrecord : exists r,
      every (Object_keys (spread x)) (fun value _ =>
        IndexTs.areEqual_rec stack (get (spread x) value)
          (get (spread (VObject [])) value)) = Normal r).
    { apply every_from_returns. intros k _ Hk. rewrite get_empty.
      apply IH. apply depth_get in Hk. lia. }
    cbn [IndexTs.areEqual_rec].
    destruct (_ && _); [|eauto].
    destruct x; exact Hrecord.
Qed.

Lemma areEqual_against_inherited (x : Value) (key : string) :
  exists r, IndexTs.areEqual x (inherited key) = Normal r.
Proof. apply areEqual_rec_against_inherited. lia. Qed.

(** A record with an own key that [Object.prototype] does not have, bound
    to something else than [undefined], does not equal the empty record. *)
Lemma areEqual_own_key (props : list (string * Value)) (key : string)
  (v : Value) :
  lookup props key = Some v -> v <> VUndefined ->
  lookup Object_prototype key = None ->
  IndexTs.areEqual (VObject props) (VObject []) = Normal false.
Proof.
  intros Hv Hdef Hown. rewrite areEqual_unfold.
  cbn [typeof is_null String.eqb Ascii.eqb Bool.eqb andb negb].
  apply (every_from_found_false _ _ key).
  - intros k _ _. rewrite get_empty. apply areEqual_against_inherited.
  - apply lookup_In in Hv. exact (in_map fst _ _ Hv).
  - intros _. rewrite get_empty. unfold inherited. rewrite Hown.
    rewrite areEqual_off_objects by (left; discriminate).
    unfold get. cbn [spread]. rewrite Hv.
    destruct v; try reflexivity. now elim Hdef.
Qed.

(** C10 as stated fails: the record [{constructor: Object}] has a key bound
    to a value that is not [undefined], and equals the empty record, which
    has [Object] under that key from [Object.prototype]. *)
Lemma areEqual_inherited_key :
  ~ ((exists key v,
        lookup (spread (VObject [("constructor", Object_function)])) key
        = Some v /\ v <> VUndefined) ->
     IndexTs.areEqual (VObject [("constructor", Object_function)])
                      (VObject []) = Normal false).
Proof.
  intros H.
  assert (Hkey : exists key v,
            lookup (spread (VObject [("constructor", Object_function)])) key
            = Some v /\ v <> VUndefined).
  { exists "constructor", Object_function. split; [reflexivity | discriminate]. }
  discriminate (H Hkey).
Qed.

(** The same pair, evaluated: [Object === Object]. *)
Example areEqual_constructor :
  IndexTs.areEqual (VObject [("constructor", Object_function)]) (VObject [])
  = Normal true /\
  IndexTs.areEqual (VObject [("constructor", num 1)]) (VObject [])
  = Normal false.
Proof. split; reflexivity. Qed.

(** No label of [getRealType] is a key of [Object.prototype]: [types[type]]
    in [countRealTypes] reads an own property of [types], or nothing. *)
Lemma real_types_not_inherited (label : string) :
  In label real_types -> lookup Object_prototype label = None.
Proof.
  intros H. unfold real_types in H. simpl in H.
  repeat (destruct H as [<-|H]; [reflexivity|]). destruct H.
Qed.

(** C10, amended.  Records are compared over the keys of the first operand
    only.  The empty record equals every object that is neither [null] nor
    an array.  A record with a key of its own that is no property of
    [Object.prototype], bound to something else than [undefined], does not
    equal the empty record; nor does a boxed string that is not empty. *)
Theorem areEqual_directional :
  (forall b,
     typeof b = "object" -> b <> VNull -> Array_isArray b = false ->
     IndexTs.areEqual (VObject []) b = Normal true) /\
  (forall props key v,
     lookup props key = Some v -> v <> VUndefined ->
     lookup Object_prototype key = None ->
     IndexTs.areEqual (VObject props) (VObject []) = Normal false) /\
  (forall c rest,
     IndexTs.areEqual (VStringObject (String c rest)) (VObject [])
     = Normal false).
Proof.
  split; [|split].
  - intros b Hobj Hnull Harr. rewrite areEqual_unfold.
    destruct b; try discriminate; try reflexivity. now elim Hnull.
  - exact areEqual_own_key.
  - intros c rest. rewrite areEqual_unfold. reflexivity.
Qed.

Lemma areEqual_directional_witness :
  IndexTs.areEqual (VObject []) (VObject [("x", num 1)]) = Normal true /\
  IndexTs.areEqual (VObject [("x", num 1)]) (VObject []) = Normal false.
Proof.
  split.
  - apply (proj1 areEqual_directional (VObject [("x", num 1)]));
      [reflexivity | discriminate | reflexivity].
  - apply (proj1 (proj2 areEqual_directional) [("x", num 1)] "x" (num 1));
      [reflexivity | discriminate | reflexivity].
Defined.

(** ** The classifier *)

Lemma first_match_app (earlier later : list ((Value -> bool) * string))
  (condition : Value -> bool) (label : string) (v : Value)
  (otherwise : string) :
  Forall (fun rule => fst rule v = false) earlier ->
  condition v = true ->
  first_match (earlier ++ (condition, label) :: later) v otherwise = label.
Proof.
  induction 1 as [|[c l] earlier Hc _ IH]; intros Hv; simpl.
  - now rewrite Hv.
  - simpl in Hc. rewrite Hc. now apply IH.
Qed.

Lemma getRealType_in_real_types (value : Value) :
  In (IndexTs.getRealType value) real_types.
Proof.
  destruct value as [| |b|[|s|z]|s|z|i|i src|items|props|s|t|src fl| | |];
    cbv; tauto.
Qed.

(** C5.  On a value whose [typeof] is ["number"]: the label is ["NaN"]
    exactly for the not-a-number sentinel, ["Infinity"] exactly for a number
    that is not it and is not finite, and ["number"] otherwise. *)
Theorem getRealType_number (value : Value) :
  typeof value = "number" ->
  (IndexTs.getRealType value = "NaN" <-> value = VNumber NaN) /\
  (IndexTs.getRealType value = "Infinity" <->
     Number_isNaN value = false /\ Number_isFinite value = false) /\
  (IndexTs.getRealType value <> "NaN" ->
   IndexTs.getRealType value <> "Infinity" ->
   IndexTs.getRealType value = "number").
Proof.
  destruct value as [| |b|[|s|z]|s|z|i|i src|items|props|s|t|src fl| | |];
    try discriminate; intros _; cbv;
    repeat split; try tauto; try discriminate; try (intros []; discriminate).
Qed.

Lemma getRealType_number_witness :
  (IndexTs.getRealType (VNumber (Infinity true)) = "NaN" <->
     VNumber (Infinity true) = VNumber NaN) /\
  (IndexTs.getRealType (VNumber (Infinity true)) = "Infinity" <->
     Number_isNaN (VNumber (Infinity true)) = false /\
     Number_isFinite (VNumber (Infinity true)) = false) /\
  (IndexTs.getRealType (VNumber (Infinity true)) <> "NaN" ->
   IndexTs.getRealType (VNumber (Infinity true)) <> "Infinity" ->
   IndexTs.getRealType (VNumber (Infinity true)) = "number").
Proof.
  apply (getRealType_number (VNumber (Infinity true))). reflexivity.
Defined.

(** C6.  [getRealType] is the first-match reading of the decision policy:
    the label of the first rule that applies, the [typeof] when none does.
    An array meets the rule for arrays before the one for plain objects:
    its label is ["array"], never ["object"]. *)
Theorem getRealType_first_match :
  (forall value,
     IndexTs.getRealType value
     = first_match decision_policy value (typeof value)) /\
  (forall items,
     IndexTs.getRealType (VArray items) = "array" /\
     IndexTs.getRealType (VArray items) <> "object").
Proof.
  split.
  - intros value.
    destruct value as [| |b|[|s|z]|s|z|i|i src|items|props|s|t|src fl| | |];
      reflexivity.
  - intros items. split; [reflexivity | discriminate].
Qed.

(** The concrete labels of the specification's scenarios. *)
Example getRealType_scenarios :
  IndexTs.getRealTypesOfItems
    [VBoolean true; VNumber NaN; VNumber (Infinity false); VNull;
     VArray [num 1; num 2; num 3]; VRegExp "a" "g"]
  = ["boolean"; "NaN"; "Infinity"; "null"; "array"; "regexp"].
Proof. reflexivity. Qed.

(** ** The collection predicates *)

(** C8.  Both predicates answer [true] on the empty array. *)
Theorem predicates_on_empty :
  IndexTs.allItemsHaveTheSameType [] = true /\
  IndexTs.everyItemHasAUniqueRealType [] = true.
Proof. split; reflexivity. Qed.

Example allItemsHaveTheSameType_scenarios :
  IndexTs.allItemsHaveTheSameType [num 11; num 12; num 13] = true /\
  IndexTs.allItemsHaveTheSameType
    [VString "11"; VStringObject "12"; VString "13"] = false /\
  IndexTs.allItemsHaveTheSameType
    [num 123; VNumber NaN; VNumber (Infinity false)] = true.
Proof. repeat split; reflexivity. Qed.

(** ** Counting: the record [types] *)

Lemma lookup_assign {A : Type} (obj : list (string * A)) (key : string)
  (v : A) (k : string) :
  lookup (assign obj key v) k
  = if String.eqb key k then Some v else lookup obj k.
Proof.
  induction obj as [|[k' w] obj IH]; simpl.
  - reflexivity.
  - destruct (String.eqb_spec k' key) as [->|Hne]; simpl.
    + destruct (String.eqb key k); reflexivity.
    + rewrite IH. destruct (String.eqb_spec k' k) as [->|_]; [|reflexivity].
      destruct (String.eqb_spec key k) as [->|_]; [now elim Hne | reflexivity].
Qed.

Lemma keys_assign {A : Type} (obj : list (string * A)) (key : string)
  (v : A) (k : string) :
  In k (Object_keys (assign obj key v)) <-> k = key \/ In k (Object_keys obj).
Proof.
  induction obj as [|[k' w] obj IH]; simpl.
  - intuition.
  - destruct (String.eqb_spec k' key) as [->|Hne]; simpl.
    + intuition.
    + rewrite IH. intuition.
Qed.

Lemma keys_assign_NoDup {A : Type} (obj : list (string * A)) (key : string)
  (v : A) :
  NoDup (Object_keys obj) -> NoDup (Object_keys (assign obj key v)).
Proof.
  induction obj as [|[k' w] obj IH]; simpl; intros H.
  - constructor; [intros [] | constructor].
  - inversion H as [|? ? Hnotin Hrest]; subst.
    destruct (String.eqb_spec k' key) as [->|Hne]; simpl.
    + now constructor.
    + constructor; [|now apply IH].
      intros Hin. apply keys_assign in Hin as [->|Hin]; [now elim Hne|].
      now elim Hnotin.
Qed.

Lemma total_assign (obj : list (string * nat)) (key : string) (v : nat) :
  total (assign obj key v) + IndexTs.count_of obj key = total obj + v.
Proof.
  unfold total, IndexTs.count_of.
  induction obj as [|[k' w] obj IH]; simpl.
  - lia.
  - destruct (String.eqb_spec k' key) as [->|Hne]; simpl; lia.
Qed.

Lemma total_count_one (types : list (string * nat)) (type : string) :
  total (IndexTs.count_one types type) = S (total types).
Proof.
  unfold IndexTs.count_one.
  pose proof (total_assign types type (IndexTs.count_of types type + 1)) as H.
  unfold IndexTs.count_of in *. lia.
Qed.

Lemma count_of_count_one (types : list (string * nat)) (type k : string) :
  IndexTs.count_of (IndexTs.count_one types type) k
  = IndexTs.count_of types k + (if String.eqb type k then 1 else 0).
Proof.
  unfold IndexTs.count_one, IndexTs.count_of at 1. rewrite lookup_assign.
  destruct (String.eqb_spec type k) as [->|_]; unfold IndexTs.count_of; lia.
Qed.

Lemma keys_count_one (types : list (string * nat)) (type k : string) :
  In k (Object_keys (IndexTs.count_one types type))
  <-> k = type \/ In k (Object_keys types).
Proof. apply keys_assign. Qed.

(** What the [forEach] loop leaves in [types]. *)
Lemma count_all_spec (typesArr : list string) :
  forall types : list (string * nat),
    NoDup (Object_keys types) ->
    let counted := IndexTs.count_all typesArr types in
    NoDup (Object_keys counted) /\
    total counted = total types + List.length typesArr /\
    (forall k, In k (Object_keys counted)
               <-> In k (Object_keys types) \/ In k typesArr) /\
    (forall k, IndexTs.count_of counted k
               = IndexTs.count_of types k + count_occ string_dec typesArr k).
Proof.
  induction typesArr as [|type typesArr IH]; intros types Hnd; simpl.
  - repeat split; try assumption; try lia; try tauto.
  - destruct (IH (IndexTs.count_one types type)
                (keys_assign_NoDup _ _ _ Hnd)) as (H1 & H2 & H3 & H4).
    unfold IndexTs.count_all in *. repeat split.
    + exact H1.
    + rewrite H2, total_count_one. lia.
    + intros H. apply H3 in H as [H|H]; [|tauto].
      apply keys_count_one in H as [->|H]; tauto.
    + intros [H|[<-|H]]; apply H3.
      * left. apply keys_count_one. now right.
      * left. apply keys_count_one. now left.
      * now right.
    + intros k. rewrite H4, count_of_count_one.
      destruct (string_dec type k) as [->|Hne].
      * rewrite String.eqb_refl. lia.
      * destruct (String.eqb_spec type k); [contradiction | lia].
Qed.

Lemma lookup_of_In {A : Type} (obj : list (string * A)) (key : string)
  (v : A) :
  NoDup (Object_keys obj) -> In (key, v) obj -> lookup obj key = Some v.
Proof.
  induction obj as [|[k w] obj IH]; simpl; intros Hnd; [tauto|].
  inversion Hnd as [|? ? Hnotin Hrest]; subst.
  intros [E|Hin].
  - injection E as -> ->. now rewrite String.eqb_refl.
  - destruct (String.eqb_spec k key) as [->|_]; [|now apply IH].
    elim Hnotin. exact (in_map fst _ _ Hin).
Qed.

Lemma countRealTypes_some (arr : list Value) (entries : list (string * nat)) :
  IndexTs.countRealTypes arr = Some entries <->
  arr <> [] /\
  entries = IndexTs.count_all (IndexTs.getRealTypesOfItems arr) [].
Proof.
  destruct arr as [|x arr].
  - split; [discriminate | intros [H _]; now elim H].
  - change (IndexTs.countRealTypes (x :: arr))
      with (Some (IndexTs.count_all
                    (IndexTs.getRealTypesOfItems (x :: arr)) [])).
    split.
    + intros H. injection H as <-. split; [discriminate | reflexivity].
    + intros [_ ->]. reflexivity.
Qed.

(** The table of a non-empty array: one row per label met, in the order the
    labels are first met, each with the number of its occurrences. *)
Lemma countRealTypes_rows (arr : list Value) (entries : list (string * nat)) :
  IndexTs.countRealTypes arr = Some entries ->
  arr <> [] /\
  NoDup (map fst entries) /\
  total entries = List.length arr /\
  (forall label count,
     In (label, count) entries <->
     In label (IndexTs.getRealTypesOfItems arr) /\
     count = count_occ string_dec (IndexTs.getRealTypesOfItems arr) label).
Proof.
  intros H. apply countRealTypes_some in H as (Hne & ->).
  destruct (count_all_spec (IndexTs.getRealTypesOfItems arr) []
              (NoDup_nil _)) as (H1 & H2 & H3 & H4).
  split; [exact Hne|]. split; [exact H1|]. split.
  - rewrite H2. unfold IndexTs.getRealTypesOfItems.
    now rewrite length_map.
  - intros label count. split.
    + intros Hin. split.
      * destruct (proj1 (H3 label) (in_map fst _ _ Hin)) as [[]|H]. exact H.
      * pose proof (lookup_of_In _ _ _ H1 Hin) as Hl.
        specialize (H4 label). unfold IndexTs.count_of in H4. rewrite Hl in H4.
        exact H4.
    + intros (Hin & ->).
      assert (Hk : In label (Object_keys
                (IndexTs.count_all (IndexTs.getRealTypesOfItems arr) [])))
        by (apply H3; now right).
      apply lookup_key in Hk as (c & Hc).
      specialize (H4 label). unfold IndexTs.count_of in H4. rewrite Hc in H4.
      simpl in H4. rewrite <- H4. now apply lookup_In.
Qed.

(** ** Uniqueness: [new Set(typesArr)] *)

Lemma In_existsb_eqb (x : string) (s : list string) :
  existsb (String.eqb x) s = true <-> In x s.
Proof.
  rewrite existsb_exists. split.
  - intros (y & Hy & E). apply String.eqb_eq in E. now subst.
  - intros H. exists x. split; [exact H | apply String.eqb_refl].
Qed.

Lemma Set_add_spec (s : list string) (x : string) :
  NoDup s ->
  NoDup (Set_add s x) /\ (forall y, In y (Set_add s x) <-> In y s \/ y = x).
Proof.
  intros Hnd. unfold Set_add.
  destruct (existsb (String.eqb x) s) eqn:E.
  - apply In_existsb_eqb in E. split; [exact Hnd|].
    intros y. split; [tauto | intros [H| ->]; assumption].
  - assert (Hnotin : ~ In x s).
    { intros H. apply In_existsb_eqb in H. congruence. }
    split.
    + apply NoDup_app; [exact Hnd | repeat constructor; intros [] | ].
      intros y Hy [<-|[]]. contradiction.
    + intros y. rewrite in_app_iff. simpl. intuition.
Qed.

Lemma Set_from_spec (l : list string) :
  forall s : list string,
    NoDup s ->
    NoDup (fold_left Set_add l s) /\
    (forall y, In y (fold_left Set_add l s) <-> In y s \/ In y l).
Proof.
  induction l as [|x l IH]; intros s Hnd; simpl.
  - split; [exact Hnd | intros y; tauto].
  - destruct (Set_add_spec s x Hnd) as [Hnd' Hin'].
    destruct (IH _ Hnd') as [H1 H2]. split; [exact H1|].
    intros y. rewrite H2, Hin'. intuition.
Qed.

(** The set is as large as the array exactly when nothing repeats. *)
Lemma new_Set_size (l : list string) :
  List.length l = List.length (new_Set l) <-> NoDup l.
Proof.
  destruct (Set_from_spec l [] (NoDup_nil _)) as [Hnd Hin].
  fold (new_Set l) in Hnd, Hin. split.
  - intros Hlen. apply (NoDup_incl_NoDup Hnd); [lia|].
    intros y Hy. apply Hin in Hy as [[]|Hy]. exact Hy.
  - intros Hl. apply Permutation_length, NoDup_Permutation; try assumption.
    intros y. rewrite Hin. simpl. tauto.
Qed.

Lemma everyItemHasAUniqueRealType_NoDup (arr : list Value) :
  IndexTs.everyItemHasAUniqueRealType arr = true
  <-> NoDup (IndexTs.getRealTypesOfItems arr).
Proof.
  unfold IndexTs.everyItemHasAUniqueRealType.
  rewrite Nat.eqb_eq. apply new_Set_size.
Qed.

(** C7.  [everyItemHasAUniqueRealType(arr)] is [true] exactly when every row
    of the table [countRealTypes(arr)] returns has count 1 ([null], returned
    for the empty array, has no rows). *)
Theorem unique_iff_counts_one (arr : list Value) :
  IndexTs.everyItemHasAUniqueRealType arr = true <->
  (forall entries,
     IndexTs.countRealTypes arr = Some entries ->
     Forall (fun entry => snd entry = 1) entries).
Proof.
  rewrite everyItemHasAUniqueRealType_NoDup, (NoDup_count_occ' string_dec).
  split.
  - intros Hone entries Hentries.
    apply countRealTypes_rows in Hentries as (_ & _ & _ & Hrows).
    apply Forall_forall. intros [label count] Hin.
    apply Hrows in Hin as (Hin & ->). simpl. now apply Hone.
  - intros Hone label Hin.
    destruct arr as [|x arr]; [destruct Hin|].
    destruct (IndexTs.countRealTypes (x :: arr)) as [entries|] eqn:E;
      [|discriminate].
    specialize (Hone entries eq_refl). rewrite Forall_forall in Hone.
    apply countRealTypes_rows in E as (_ & _ & _ & Hrows).
    exact (Hone (label, _) (proj2 (Hrows label _) (conj Hin eq_refl))).
Qed.

Lemma unique_iff_counts_one_witness :
  IndexTs.everyItemHasAUniqueRealType
    [VBoolean true; num 123; VString "123"] = true /\
  Forall (fun entry => snd entry = 1)
    [("boolean", 1); ("number", 1); ("string", 1)].
Proof.
  split; [reflexivity|].
  apply (proj1 (unique_iff_counts_one
                  [VBoolean true; num 123; VString "123"])); reflexivity.
Defined.

Example everyItemHasAUniqueRealType_scenarios :
  IndexTs.everyItemHasAUniqueRealType
    [VBoolean true; num 123; VString "123"] = true /\
  IndexTs.everyItemHasAUniqueRealType
    [VBoolean true; num 123; VBoolean false] = false.
Proof. split; reflexivity. Qed.

(** ** The absent result *)

(** C3.  On the empty array [countRealTypes] returns [null], which is not
    the empty table and which [areEqual] tells from it; it returns a table
    exactly on a non-empty array, and that table has a row. *)
Theorem countRealTypes_absent :
  IndexTs.countRealTypes [] = None /\
  ts_value None <> table_value [] /\
  IndexTs.areEqual (ts_value None) (table_value []) = Normal false /\
  (forall arr,
     (exists entries, IndexTs.countRealTypes arr = Some entries)
     <-> arr <> []) /\
  (forall arr, IndexTs.countRealTypes arr <> Some []).
Proof.
  split; [reflexivity|]. split; [discriminate|]. split; [reflexivity|].
  split.
  - intros arr. split.
    + intros (entries & H). now apply countRealTypes_some in H.
    + intros H. eexists. apply countRealTypes_some. now split.
  - intros arr H. apply countRealTypes_rows in H as (Hne & _ & Htotal & _).
    destruct arr; [now elim Hne | discriminate].
Qed.

(** ** The order of texts *)

Lemma ascii_compare_refl (c : ascii) : Ascii.compare c c = Eq.
Proof. apply N.compare_refl. Qed.

Lemma ascii_compare_lt_trans (a b c : ascii) :
  Ascii.compare a b = Lt -> Ascii.compare b c = Lt -> Ascii.compare a c = Lt.
Proof.
  unfold Ascii.compare. rewrite !N.compare_lt_iff. apply N.lt_trans.
Qed.

Lemma string_compare_lt_trans (x : string) :
  forall y z : string,
    String.compare x y = Lt -> String.compare y z = Lt ->
    String.compare x z = Lt.
Proof.
  induction x as [|a x IH]; intros [|b y] [|c z]; simpl;
    try discriminate; try reflexivity.
  destruct (Ascii.compare a b) eqn:Eab; try discriminate;
    destruct (Ascii.compare b c) eqn:Ebc; try discriminate.
  - apply Ascii.compare_eq_iff in Eab, Ebc. subst.
    rewrite ascii_compare_refl. apply IH.
  - apply Ascii.compare_eq_iff in Eab. subst. now rewrite Ebc.
  - apply Ascii.compare_eq_iff in Ebc. subst. now rewrite Eab.
  - now rewrite (ascii_compare_lt_trans _ _ _ Eab Ebc).
Qed.

Lemma label_lt_trans (e1 e2 e3 : string * nat) :
  label_lt e1 e2 -> label_lt e2 e3 -> label_lt e1 e3.
Proof. apply string_compare_lt_trans. Qed.

(** Where two texts part ways decides their order, whatever follows. *)
Lemma compare_diverge (s1 : string) :
  forall s2 t1 t2 : string,
    diverge s1 s2 = true ->
    String.compare (s1 ++ t1) (s2 ++ t2) = String.compare s1 s2.
Proof.
  induction s1 as [|a s1 IH]; intros [|b s2] t1 t2; simpl; try discriminate.
  destruct (Ascii.eqb_spec a b) as [->|Hne].
  - rewrite ascii_compare_refl. apply IH.
  - intros _. destruct (Ascii.compare a b) eqn:E; try reflexivity.
    apply Ascii.compare_eq_iff in E. contradiction.
Qed.

(** No label is the start of another. *)
Lemma real_types_diverge (l1 l2 : string) :
  In l1 real_types -> In l2 real_types -> l1 <> l2 -> diverge l1 l2 = true.
Proof.
  assert (Hall : forallb (fun a =>
            forallb (fun b => String.eqb a b || diverge a b) real_types)
            real_types = true) by (vm_compute; reflexivity).
  intros H1 H2 Hne. rewrite forallb_forall in Hall.
  specialize (Hall l1 H1). rewrite forallb_forall in Hall.
  specialize (Hall l2 H2).
  destruct (String.eqb_spec l1 l2); [contradiction | exact Hall].
Qed.

(** ** [sort] puts texts in order *)

Lemma insert_by_text_sorted {A : Type} (x : string * A)
  (l : list (string * A)) :
  Sorted (fun p q => String.leb (fst p) (fst q) = true) l ->
  Sorted (fun p q => String.leb (fst p) (fst q) = true) (insert_by_text x l).
Proof.
  induction l as [|y l IH]; simpl; intros H.
  - repeat constructor.
  - destruct (String.leb (fst x) (fst y)) eqn:E.
    + constructor; [exact H | now constructor].
    + inversion H as [|? ? Hl Hhd]; subst.
      constructor; [now apply IH|].
      assert (Hyx : String.leb (fst y) (fst x) = true).
      { destruct (String.leb_total (fst x) (fst y)); congruence. }
      destruct l as [|z l]; simpl; [now constructor|].
      destruct (String.leb (fst x) (fst z)); constructor; [exact Hyx|].
      now inversion Hhd.
Qed.

Lemma stable_sort_sorted {A : Type} (l : list (string * A)) :
  Sorted (fun p q => String.leb (fst p) (fst q) = true) (stable_sort l).
Proof.
  induction l as [|x l IH]; simpl; [constructor|].
  now apply insert_by_text_sorted.
Qed.

Lemma sorted_map_snd {A : Type} (text : A -> string) (l : list (string * A)) :
  Forall (fun p => fst p = text (snd p)) l ->
  Sorted (fun p q => String.leb (fst p) (fst q) = true) l ->
  Sorted (fun x y => String.leb (text x) (text y) = true) (map snd l).
Proof.
  induction 1 as [|p l Hp Hl IH]; intros H; simpl; [constructor|].
  inversion H as [|? ? Hs Hhd]; subst. constructor; [now apply IH|].
  destruct Hhd as [|q l' Hpq]; simpl; constructor.
  inversion Hl as [|? ? Hq _]; subst. now rewrite <- Hp, <- Hq.
Qed.

Lemma sort_entries_perm (entries : list (string * nat)) :
  Permutation (Part000.sort_entries entries) entries.
Proof.
  unfold Part000.sort_entries.
  rewrite stable_sort_perm, map_map. simpl. now rewrite map_id.
Qed.

Lemma sort_entries_by_text (entries : list (string * nat)) :
  Sorted (fun x y =>
            String.leb (Part000.entry_text x) (Part000.entry_text y) = true)
    (Part000.sort_entries entries).
Proof.
  apply sorted_map_snd; [|apply stable_sort_sorted].
  apply (Permutation_Forall (Permutation_sym (stable_sort_perm _))).
  apply Forall_forall. intros p Hp. apply in_map_iff in Hp as (e & <- & _).
  reflexivity.
Qed.

(** Entries with distinct labels of [getRealType], in the order of their
    texts, are in the order of their labels. *)
Lemma sorted_text_label (l : list (string * nat)) :
  Sorted (fun x y =>
            String.leb (Part000.entry_text x) (Part000.entry_text y) = true) l ->
  NoDup (map fst l) ->
  Forall (fun e => In (fst e) real_types) l ->
  sorted_by_label l.
Proof.
  intros Hs Hnd Hin. apply Sorted_StronglySorted; [exact label_lt_trans|].
  induction l as [|a l IH]; [constructor|].
  inversion Hs as [|? ? Hs' Hhd]; subst.
  inversion Hnd as [|? ? Hnotin Hnd']; subst.
  inversion Hin as [|? ? Ha Hin']; subst.
  constructor; [now apply IH|].
  destruct Hhd as [|b l Hab]; constructor.
  inversion Hin' as [|? ? Hb _]; subst.
  assert (Hne : fst a <> fst b) by (intros E; apply Hnotin; now left).
  unfold label_lt. unfold Part000.entry_text, String.leb in Hab.
  rewrite (compare_diverge _ _ _ _ (real_types_diverge _ _ Ha Hb Hne)) in Hab.
  destruct (String.compare (fst a) (fst b)) eqn:E;
    [apply String.compare_eq_iff in E; contradiction
    | reflexivity | discriminate].
Qed.

(** ** [entries.sort()] of [src/unnamed/part_000] is the [sort] of values *)

Lemma insert_by_text_payload {A B : Type} (f : A -> B) (x : string * A)
  (l : list (string * A)) :
  insert_by_text (fst x, f (snd x)) (map (fun p => (fst p, f (snd p))) l)
  = map (fun p => (fst p, f (snd p))) (insert_by_text x l).
Proof.
  induction l as [|y l IH]; simpl; [reflexivity|].
  destruct (String.leb (fst x) (fst y)); simpl; [reflexivity|].
  now rewrite IH.
Qed.

Lemma stable_sort_payload {A B : Type} (f : A -> B) (l : list (string * A)) :
  stable_sort (map (fun p => (fst p, f (snd p))) l)
  = map (fun p => (fst p, f (snd p))) (stable_sort l).
Proof.
  induction l as [|x l IH]; simpl; [reflexivity|].
  now rewrite IH, insert_by_text_payload.
Qed.

Lemma toString_entry (entry : string * nat) :
  toString (entry_value entry) = Normal (Part000.entry_text entry).
Proof.
  destruct entry as [label count]. unfold Part000.entry_text. simpl.
  reflexivity.
Qed.

Lemma with_text_entries (entries : list (string * nat)) :
  with_text (map entry_value entries)
  = Normal (map (fun p => (fst p, entry_value (snd p)))
              (map (fun entry => (Part000.entry_text entry, entry)) entries)).
Proof.
  induction entries as [|e entries IH]; [reflexivity|].
  cbn [map with_text]. rewrite toString_entry, IH. reflexivity.
Qed.

Lemma filter_entries_defined (entries : list (string * nat)) :
  filter (fun v => negb (is_undefined v)) (map entry_value entries)
  = map entry_value entries /\
  filter is_undefined (map entry_value entries) = [].
Proof.
  induction entries as [|e entries [IH1 IH2]]; [split; reflexivity|].
  simpl. now rewrite IH1, IH2.
Qed.

(** Sorting the entries by their texts is what [sort()] does to the array
    of two-element arrays. *)
Lemma sort_entries_is_sort (entries : list (string * nat)) :
  sort (map entry_value entries)
  = Normal (map entry_value (Part000.sort_entries entries)).
Proof.
  unfold sort. destruct (filter_entries_defined entries) as [-> ->].
  destruct entries as [|e1 [|e2 entries]]; try reflexivity.
  rewrite with_text_entries. cbn [bind].
  rewrite stable_sort_payload.
  change (map entry_value (e1 :: e2 :: entries))
    with (entry_value e1 :: entry_value e2 :: map entry_value entries) at 1.
  cbv iota. rewrite app_nil_r.
  unfold Part000.sort_entries. now rewrite !map_map.
Qed.

(** ** The table of counts *)

Lemma total_perm (l1 l2 : list (string * nat)) :
  Permutation l1 l2 -> total l1 = total l2.
Proof.
  unfold total. induction 1; simpl; lia.
Qed.

Lemma count_all_labels (arr : list Value) :
  Forall (fun e => In (fst e) real_types)
    (IndexTs.count_all (IndexTs.getRealTypesOfItems arr) []).
Proof.
  destruct (count_all_spec (IndexTs.getRealTypesOfItems arr) []
              (NoDup_nil _)) as (_ & _ & Hkeys & _).
  apply Forall_forall. intros e He.
  destruct (proj1 (Hkeys (fst e)) (in_map fst _ _ He)) as [[]|Hin].
  apply in_map_iff in Hin as (v & <- & _). apply getRealType_in_real_types.
Qed.

(** In [src/index.ts] the counts of a non-empty array sum to its length and
    no label has two rows. *)
Lemma countRealTypes_sum_distinct (arr : list Value) :
  arr <> [] ->
  exists entries,
    IndexTs.countRealTypes arr = Some entries /\
    total entries = List.length arr /\
    NoDup (map fst entries) /\
    Forall (fun e => 1 <= snd e) entries.
Proof.
  intros Hne. eexists. split; [apply countRealTypes_some; now split|].
  assert (E : IndexTs.countRealTypes arr
              = Some (IndexTs.count_all (IndexTs.getRealTypesOfItems arr) []))
    by (apply countRealTypes_some; now split).
  destruct (countRealTypes_rows _ _ E) as (_ & Hnd & Htotal & Hrows).
  repeat split; try assumption.
  apply Forall_forall. intros [label count] Hin.
  apply Hrows in Hin as (Hin & ->). simpl.
  apply (count_occ_In string_dec) in Hin. lia.
Qed.

(** In [src/unnamed/part_000], where the entries are sorted before they are
    returned, the table of a non-empty array has all three properties:
    counts that sum to the length, distinct labels, ascending labels. *)
Lemma part000_countRealTypes_sorted (arr : list Value) :
  arr <> [] ->
  exists entries,
    Part000.countRealTypes arr = Part000.Entries entries /\
    total entries = List.length arr /\
    NoDup (map fst entries) /\
    sorted_by_label entries.
Proof.
  intros Hne.
  destruct (countRealTypes_sum_distinct arr Hne)
    as (unsorted & E & Htotal & Hnd & _).
  apply countRealTypes_some in E as (_ & ->).
  exists (Part000.sort_entries
            (IndexTs.count_all (IndexTs.getRealTypesOfItems arr) [])).
  pose proof (sort_entries_perm
    (IndexTs.count_all (IndexTs.getRealTypesOfItems arr) [])) as Hperm.
  split; [destruct arr; [now elim Hne | reflexivity]|].
  assert (Hnd' : NoDup (map fst (Part000.sort_entries
            (IndexTs.count_all (IndexTs.getRealTypesOfItems arr) [])))).
  { apply (Permutation_NoDup (Permutation_sym (Permutation_map fst Hperm))).
    exact Hnd. }
  repeat split.
  - rewrite <- Htotal. apply total_perm, Hperm.
  - exact Hnd'.
  - apply sorted_text_label; [apply sort_entries_by_text | exact Hnd' |].
    apply (Permutation_Forall (Permutation_sym Hperm)), count_all_labels.
Qed.

(** C2.  The test array of the source, objects first: [src/index.ts]
    returns the rows in the order the labels were met, which is not the
    ascending order of the labels. *)
Theorem countRealTypes_unsorted :
  IndexTs.countRealTypes
    [VObject []; VNull; VBoolean true; VBoolean true; VBoolean false]
  = Some [("object", 1); ("null", 1); ("boolean", 3)] /\
  ~ sorted_by_label [("object", 1); ("null", 1); ("boolean", 3)].
Proof.
  split; [reflexivity|].
  intros H. inversion H as [|? ? _ Hall]; subst.
  inversion Hall as [|? ? Hlt _]; subst. discriminate Hlt.
Qed.

(** The harness does not see it: [areEqual] sorts both arrays first. *)
Example countRealTypes_test_passes :
  IndexTs.areEqual
    (ts_value (IndexTs.countRealTypes
       [VObject []; VNull; VBoolean true; VBoolean true; VBoolean false]))
    (table_value [("boolean", 3); ("null", 1); ("object", 1)])
  = Normal true.
Proof. reflexivity. Qed.

(** ** The two versions of [countRealTypes] *)

(** C9 as stated fails: on the empty array one version returns [null], the
    other the number [0]. *)
Lemma countRealTypes_versions_differ :
  ts_value (IndexTs.countRealTypes []) <> js_value (Part000.countRealTypes []).
Proof. discriminate. Qed.

(** C9, amended.  On the empty array [src/index.ts] returns [null] and
    [src/unnamed/part_000] returns [0]; on a non-empty array both return a
    table, with the same rows: the second table is the first one after
    [entries.sort()]. *)
Theorem countRealTypes_versions :
  (IndexTs.countRealTypes [] = None /\
   Part000.countRealTypes [] = Part000.Zero) /\
  (forall arr,
     arr <> [] ->
     exists entries,
       IndexTs.countRealTypes arr = Some entries /\
       Part000.countRealTypes arr
       = Part000.Entries (Part000.sort_entries entries) /\
       Permutation entries (Part000.sort_entries entries)).
Proof.
  split; [split; reflexivity|].
  intros arr Hne.
  exists (IndexTs.count_all (IndexTs.getRealTypesOfItems arr) []).
  split; [apply countRealTypes_some; now split|].
  split; [destruct arr; [now elim Hne | reflexivity]|].
  apply Permutation_sym, sort_entries_perm.
Qed.

Lemma countRealTypes_versions_witness :
  [VObject []; VNull; VBoolean true] <> [] /\
  exists entries,
    IndexTs.countRealTypes [VObject []; VNull; VBoolean true] = Some entries /\
    Part000.countRealTypes [VObject []; VNull; VBoolean true]
    = Part000.Entries (Part000.sort_entries entries) /\
    Permutation entries (Part000.sort_entries entries).
Proof.
  split; [discriminate|].
  apply (proj2 countRealTypes_versions [VObject []; VNull; VBoolean true]).
  discriminate.
Defined.

(** [src/unnamed/part_000] marks the empty array with the number [0]
    instead, which is no table either. *)
Lemma part000_countRealTypes_absent :
  Part000.countRealTypes [] = Part000.Zero /\
  js_value Part000.Zero <> table_value [] /\
  (forall arr,
     (exists entries, Part000.countRealTypes arr = Part000.Entries entries)
     <-> arr <> []).
Proof.
  split; [reflexivity|]. split; [discriminate|].
  intros [|x arr]; split.
  - intros (entries & H). discriminate.
  - intros H. now elim H.
  - discriminate.
  - intros _. eexists. reflexivity.
Qed.

(** An array against a record is compared as a record, over the indices of
    the array. *)
Example areEqual_array_as_record :
  IndexTs.areEqual (VArray [num 1]) (VObject [("0", num 1)]) = Normal true /\
  IndexTs.areEqual (VArray [num 1]) (VObject []) = Normal false /\
  IndexTs.areEqual (VArray [num 1]) VNull = Normal false /\
  IndexTs.areEqual (VArray []) (VArray []) = Normal true.
Proof. repeat split; reflexivity. Qed.

(** Nothing is compared against an empty first array. *)
Example areEqual_empty_first :
  IndexTs.areEqual (VArray []) (VArray [num 1; num 2; num 3]) = Normal true.
Proof. reflexivity. Qed.

(** The first test array of the source meets its labels in ascending order,
    and the table comes out as the test writes it. *)
Example countRealTypes_first_test :
  IndexTs.countRealTypes
    [VBoolean true; VNull; VBoolean true; VBoolean false; VObject []]
  = Some [("boolean", 3); ("null", 1); ("object", 1)] /\
  Part000.countRealTypes
    [VObject []; VNull; VBoolean true; VBoolean true; VBoolean false]
  = Part000.Entries [("boolean", 3); ("null", 1); ("object", 1)].
Proof. split; reflexivity. Qed.

(** Two symbols in one array cannot be sorted. *)
Example areEqual_symbols :
  IndexTs.areEqual (VArray [VSymbol 0; VSymbol 1])
                   (VArray [VSymbol 0; VSymbol 1]) = Throw TypeError /\
  IndexTs.areEqual (VArray [VSymbol 0]) (VArray [VSymbol 0]) = Normal true.
Proof. split; reflexivity. Qed.

(** ** More on the classifier and the predicates *)

Lemma filter_none {A : Type} (f : A -> bool) (l : list A) :
  List.length (filter f l) = 0 <-> (forall x, In x l -> f x = false).
Proof.
  induction l as [|x l IH]; simpl.
  - split; [intros _ y [] | reflexivity].
  - destruct (f x) eqn:E; simpl.
    + split; [discriminate|]. intros H. specialize (H x (or_introl eq_refl)).
      congruence.
    + rewrite IH. split.
      * intros H y [<-|Hy]; [exact E | now apply H].
      * intros H y Hy. apply H. now right.
Qed.

Lemma allItemsHaveTheSameType_spec (arr : list Value) :
  IndexTs.allItemsHaveTheSameType arr = true <->
  (forall x y, In x arr -> In y arr -> IndexTs.getType x = IndexTs.getType y).
Proof.
  unfold IndexTs.allItemsHaveTheSameType. rewrite Nat.eqb_eq, filter_none.
  destruct arr as [|a arr].
  - split; [intros _ x y [] | intros _ x []].
  - cbn [IndexTs.getTypesOfItems map nth_error IndexTs.differs_from].
    fold (IndexTs.getTypesOfItems arr).
    assert (Hhead : (forall type,
               In type (IndexTs.getType a :: IndexTs.getTypesOfItems arr) ->
               negb (String.eqb type (IndexTs.getType a)) = false)
            <-> (forall x, In x (a :: arr) ->
                           IndexTs.getType x = IndexTs.getType a)).
    { split.
      - intros H x Hx.
        assert (Hin : In (IndexTs.getType x)
                        (IndexTs.getType a :: IndexTs.getTypesOfItems arr))
          by exact (in_map IndexTs.getType (a :: arr) x Hx).
        specialize (H _ Hin). apply negb_false_iff in H.
        now apply String.eqb_eq.
      - intros H type Htype.
        change (In type (map IndexTs.getType (a :: arr))) in Htype.
        apply in_map_iff in Htype as (x & <- & Hx).
        rewrite (H x Hx). now rewrite String.eqb_refl. }
    rewrite Hhead. split.
    + intros H x y Hx Hy. now rewrite (H x Hx), (H y Hy).
    + intros H x Hx. apply H; [exact Hx | now left].
Qed.

(** X1.  [allItemsHaveTheSameType(arr)] is [true] exactly when any two items
    of [arr] have the same [typeof]. *)
Theorem allItemsHaveTheSameType_pairwise (arr : list Value) :
  IndexTs.allItemsHaveTheSameType arr = true <->
  (forall x y, In x arr -> In y arr -> IndexTs.getType x = IndexTs.getType y).
Proof. exact (allItemsHaveTheSameType_spec arr). Qed.

Lemma getRealType_decides_typeof (x y : Value) :
  IndexTs.getRealType x = IndexTs.getRealType y ->
  IndexTs.getType x = IndexTs.getType y.
Proof.
  destruct x as [| |b|[|s|z]|s|z|i|i src|items|props|s|t|src fl| | |];
    destruct y as [| |b'|[|s'|z']|s'|z'|i'|i' src'|items'|props'|s'|t'|src' fl'| | |];
    cbv; intros H; try reflexivity; discriminate H.
Qed.

(** X2.  The label of [getRealType] decides the [typeof]: two values with
    the same real type have the same native type. *)
Theorem getRealType_refines_getType (x y : Value) :
  IndexTs.getRealType x = IndexTs.getRealType y ->
  IndexTs.getType x = IndexTs.getType y.
Proof. exact (getRealType_decides_typeof x y). Qed.

Lemma getRealType_refines_getType_witness :
  IndexTs.getRealType (VObject []) = IndexTs.getRealType (VStringObject "12")
  /\ IndexTs.getType (VObject []) = IndexTs.getType (VStringObject "12").
Proof.
  split; [reflexivity|].
  apply (getRealType_refines_getType (VObject []) (VStringObject "12")).
  reflexivity.
Defined.

(** X3.  An array whose items all have one real type passes
    [allItemsHaveTheSameType]; the converse fails, the native type being the
    coarser one. *)
Theorem same_real_type_same_type (arr : list Value) :
  (forall x y, In x arr -> In y arr ->
               IndexTs.getRealType x = IndexTs.getRealType y) ->
  IndexTs.allItemsHaveTheSameType arr = true.
Proof.
  intros H. apply allItemsHaveTheSameType_spec. intros x y Hx Hy.
  apply getRealType_decides_typeof, H; assumption.
Qed.

Lemma same_real_type_same_type_witness :
  (forall x y, In x [VNumber NaN; VNumber NaN] ->
               In y [VNumber NaN; VNumber NaN] ->
               IndexTs.getRealType x = IndexTs.getRealType y) /\
  IndexTs.allItemsHaveTheSameType [VNumber NaN; VNumber NaN] = true.
Proof.
  assert (H : forall x y, In x [VNumber NaN; VNumber NaN] ->
                          In y [VNumber NaN; VNumber NaN] ->
                          IndexTs.getRealType x = IndexTs.getRealType y).
  { intros x y [<-|[<-|[]]] [<-|[<-|[]]]; reflexivity. }
  split; [exact H|].
  exact (same_real_type_same_type [VNumber NaN; VNumber NaN] H).
Defined.

(** The converse of X3 fails: one native type, three real types. *)
Example same_type_other_real_types :
  IndexTs.allItemsHaveTheSameType
    [num 123; VNumber NaN; VNumber (Infinity false)] = true /\
  IndexTs.getRealTypesOfItems
    [num 123; VNumber NaN; VNumber (Infinity false)]
  = ["number"; "NaN"; "Infinity"].
Proof. split; reflexivity. Qed.

(** X4.  [getRealType] departs from [typeof] exactly on the values its own
    tests single out: not-a-number, the infinities, arrays, [null], dates,
    maps, sets, promises and regular expressions. *)
Theorem getRealType_is_getType (value : Value) :
  IndexTs.getRealType value = IndexTs.getType value <->
  Number_isNaN value = false /\
  (typeof value = "number" -> Number_isFinite value = true) /\
  Array_isArray value = false /\
  is_null value = false /\
  (forall C, instanceof value C = false).
Proof.
  destruct value as [| |b|[|s|z]|s|z|i|i src|items|props|s|t|src fl| | |];
    cbv; split;
    try (intros _; repeat split; try reflexivity; try discriminate;
         intros []; reflexivity);
    try reflexivity;
    try discriminate;
    try (intros (H1 & H2 & H3 & H4 & H5); try discriminate;
         try discriminate (H2 eq_refl);
         first [ discriminate (H5 ClassDate) | discriminate (H5 ClassMap)
               | discriminate (H5 ClassSet) | discriminate (H5 ClassPromise)
               | discriminate (H5 ClassRegExp) ]).
Qed.

(** X5.  There are seventeen real types, so an array that passes
    [everyItemHasAUniqueRealType] has at most seventeen items. *)
Theorem unique_real_types_at_most_17 (arr : list Value) :
  IndexTs.everyItemHasAUniqueRealType arr = true ->
  List.length arr <= 17.
Proof.
  intros H. apply everyItemHasAUniqueRealType_NoDup in H.
  change 17 with (List.length real_types).
  rewrite <- (length_map IndexTs.getRealType arr).
  apply NoDup_incl_length; [exact H|].
  intros label Hl. apply in_map_iff in Hl as (v & <- & _).
  apply getRealType_in_real_types.
Qed.

Lemma unique_real_types_at_most_17_witness :
  List.length [VBoolean true; num 123; VString "123"] <= 17.
Proof.
  apply (unique_real_types_at_most_17 [VBoolean true; num 123; VString "123"]).
  reflexivity.
Defined.

(** Seventeen is reached: the array [knownTypes] of the source. *)
Example knownTypes_unique :
  IndexTs.everyItemHasAUniqueRealType
    [num 42; VNumber NaN; VNumber (Infinity false); VString "string";
     VBoolean false; VBigInt 12; VSymbol 0; VUndefined; VNull;
     VRegExp "[a-zA-Z]" "g"; VObject [("1", VString "a"); ("2", VString "b")];
     VArray [num 1; num 2; num 3]; VFunction 0 "() => 1"; VDate "now";
     VMap; VSet; VPromise] = true.
Proof. reflexivity. Qed.

(** X6.  [everyItemHasAUniqueRealType] does not depend on the order of the
    items. *)
Theorem everyItemHasAUniqueRealType_perm (arr arr' : list Value) :
  Permutation arr arr' ->
  IndexTs.everyItemHasAUniqueRealType arr
  = IndexTs.everyItemHasAUniqueRealType arr'.
Proof.
  intros Hperm.
  assert (Hlabels : Permutation (IndexTs.getRealTypesOfItems arr)
                                (IndexTs.getRealTypesOfItems arr'))
    by exact (Permutation_map IndexTs.getRealType Hperm).
  destruct (IndexTs.everyItemHasAUniqueRealType arr) eqn:E;
    destruct (IndexTs.everyItemHasAUniqueRealType arr') eqn:E';
    try reflexivity.
  - apply everyItemHasAUniqueRealType_NoDup in E.
    apply (Permutation_NoDup Hlabels) in E.
    apply everyItemHasAUniqueRealType_NoDup in E. congruence.
  - apply everyItemHasAUniqueRealType_NoDup in E'.
    apply (Permutation_NoDup (Permutation_sym Hlabels)) in E'.
    apply everyItemHasAUniqueRealType_NoDup in E'. congruence.
Qed.

Lemma everyItemHasAUniqueRealType_perm_witness :
  IndexTs.everyItemHasAUniqueRealType [VNull; num 1]
  = IndexTs.everyItemHasAUniqueRealType [num 1; VNull].
Proof.
  apply (everyItemHasAUniqueRealType_perm [VNull; num 1] [num 1; VNull]).
  apply perm_swap.
Defined.

(** ** More on the table of counts *)

Lemma count_occ_map_filter {A : Type} (f : A -> string) (l : list A)
  (k : string) :
  count_occ string_dec (map f l) k
  = List.length (filter (fun x => String.eqb (f x) k) l).
Proof.
  induction l as [|x l IH]; simpl; [reflexivity|].
  destruct (string_dec (f x) k) as [->|Hne].
  - rewrite String.eqb_refl. simpl. now rewrite IH.
  - destruct (String.eqb_spec (f x) k); [contradiction | exact IH].
Qed.

(** X7.  The rows of [countRealTypes(arr)]: a pair is a row exactly when
    its count is positive and is the number of items of [arr] whose real
    type is its label. *)
Theorem countRealTypes_counts_items (arr : list Value)
  (entries : list (string * nat)) :
  IndexTs.countRealTypes arr = Some entries ->
  forall label count,
    In (label, count) entries <->
    0 < count /\
    count = List.length
              (filter (fun value =>
                         String.eqb (IndexTs.getRealType value) label) arr).
Proof.
  intros H label count.
  apply countRealTypes_rows in H as (_ & _ & _ & Hrows).
  rewrite Hrows. unfold IndexTs.getRealTypesOfItems.
  rewrite count_occ_map_filter. split.
  - intros (Hin & ->). split; [|reflexivity].
    rewrite <- count_occ_map_filter. now apply count_occ_In.
  - intros (Hpos & ->). split; [|reflexivity].
    apply (count_occ_In string_dec). now rewrite count_occ_map_filter.
Qed.

Lemma countRealTypes_counts_items_witness :
  In ("boolean", 3) [("boolean", 3); ("null", 1); ("object", 1)] <->
  0 < 3 /\
  3 = List.length
        (filter (fun value =>
                   String.eqb (IndexTs.getRealType value) "boolean")
           [VBoolean true; VNull; VBoolean true; VBoolean false; VObject []]).
Proof.
  apply (countRealTypes_counts_items
           [VBoolean true; VNull; VBoolean true; VBoolean false; VObject []]
           [("boolean", 3); ("null", 1); ("object", 1)]).
  reflexivity.
Defined.

Lemma keys_assign_eq {A : Type} (obj : list (string * A)) (key : string)
  (v : A) :
  Object_keys (assign obj key v)
  = if existsb (String.eqb key) (Object_keys obj) then Object_keys obj
    else Object_keys obj ++ [key].
Proof.
  induction obj as [|[k w] obj IH]; simpl; [reflexivity|].
  rewrite (String.eqb_sym key k).
  destruct (String.eqb k key); simpl; [reflexivity|].
  rewrite IH. now destruct (existsb (String.eqb key) (Object_keys obj)).
Qed.

Lemma keys_count_all (typesArr : list string) :
  forall types : list (string * nat),
    Object_keys (IndexTs.count_all typesArr types)
    = fold_left Set_add typesArr (Object_keys types).
Proof.
  unfold IndexTs.count_all.
  induction typesArr as [|type typesArr IH]; intros types; simpl;
    [reflexivity|].
  rewrite IH. f_equal. apply keys_assign_eq.
Qed.

Lemma countRealTypes_keys (arr : list Value) (entries : list (string * nat)) :
  IndexTs.countRealTypes arr = Some entries ->
  map fst entries = new_Set (IndexTs.getRealTypesOfItems arr).
Proof.
  intros H. apply countRealTypes_some in H as (_ & ->).
  exact (keys_count_all _ []).
Qed.

(** X8.  In [src/index.ts] the labels of the table are the real types of
    the items in the order they are first met, each once: the [Set] that
    [everyItemHasAUniqueRealType] builds from the same array. *)
Theorem countRealTypes_first_met_order (arr : list Value)
  (entries : list (string * nat)) :
  IndexTs.countRealTypes arr = Some entries ->
  map fst entries = new_Set (IndexTs.getRealTypesOfItems arr).
Proof. exact (countRealTypes_keys arr entries). Qed.

Lemma countRealTypes_first_met_order_witness :
  map fst [("object", 1); ("null", 1); ("boolean", 3)]
  = new_Set (IndexTs.getRealTypesOfItems
       [VObject []; VNull; VBoolean true; VBoolean true; VBoolean false]).
Proof.
  apply (countRealTypes_first_met_order
           [VObject []; VNull; VBoolean true; VBoolean true; VBoolean false]).
  reflexivity.
Defined.

(** X9.  On a non-empty array, [everyItemHasAUniqueRealType] is [true]
    exactly when [countRealTypes] returns as many rows as there are
    items. *)
Theorem unique_iff_as_many_rows (arr : list Value)
  (entries : list (string * nat)) :
  IndexTs.countRealTypes arr = Some entries ->
  (IndexTs.everyItemHasAUniqueRealType arr = true <->
   List.length entries = List.length arr).
Proof.
  intros H. apply countRealTypes_keys in H.
  unfold IndexTs.everyItemHasAUniqueRealType. rewrite Nat.eqb_eq, <- H.
  unfold IndexTs.getRealTypesOfItems. rewrite !length_map.
  split; intros E; now symmetry.
Qed.

Lemma unique_iff_as_many_rows_witness :
  IndexTs.everyItemHasAUniqueRealType [VBoolean true; num 123; VBoolean false]
  = true <->
  List.length [("boolean", 2); ("number", 1)]
  = List.length [VBoolean true; num 123; VBoolean false].
Proof.
  apply (unique_iff_as_many_rows [VBoolean true; num 123; VBoolean false]).
  reflexivity.
Defined.

(** Reordering the items reorders the rows, and no more. *)
Lemma countRealTypes_rows_perm (arr arr' : list Value)
  (entries entries' : list (string * nat)) :
  Permutation arr arr' ->
  IndexTs.countRealTypes arr = Some entries ->
  IndexTs.countRealTypes arr' = Some entries' ->
  Permutation entries entries'.
Proof.
  intros Hperm H H'.
  apply countRealTypes_rows in H as (_ & Hnd & _ & Hrows).
  apply countRealTypes_rows in H' as (_ & Hnd' & _ & Hrows').
  assert (Hlabels : Permutation (IndexTs.getRealTypesOfItems arr)
                                (IndexTs.getRealTypesOfItems arr'))
    by exact (Permutation_map IndexTs.getRealType Hperm).
  apply NoDup_Permutation.
  - exact (NoDup_map_inv fst _ Hnd).
  - exact (NoDup_map_inv fst _ Hnd').
  - intros [label count]. rewrite Hrows, Hrows'.
    rewrite (proj1 (Permutation_count_occ string_dec _ _) Hlabels label).
    split; intros [Hin E]; (split; [|exact E]).
    + exact (Permutation_in _ Hlabels Hin).
    + exact (Permutation_in _ (Permutation_sym Hlabels) Hin).
Qed.

Lemma countRealTypes_perm_some (arr arr' : list Value)
  (entries : list (string * nat)) :
  Permutation arr arr' ->
  IndexTs.countRealTypes arr = Some entries ->
  exists entries', IndexTs.countRealTypes arr' = Some entries'.
Proof.
  intros Hperm H. apply countRealTypes_some in H as (Hne & _).
  eexists. apply countRealTypes_some. split; [|reflexivity].
  intros ->. apply Permutation_sym, Permutation_nil in Hperm. contradiction.
Qed.

(** X10.  In [src/index.ts], reordering the items of the array can only
    reorder the rows of the table: labels and counts stay. *)
Theorem countRealTypes_perm (arr arr' : list Value)
  (entries : list (string * nat)) :
  Permutation arr arr' ->
  IndexTs.countRealTypes arr = Some entries ->
  exists entries',
    IndexTs.countRealTypes arr' = Some entries' /\
    Permutation entries entries'.
Proof.
  intros Hperm H.
  destruct (countRealTypes_perm_some _ _ _ Hperm H) as (entries' & H').
  exists entries'. split; [exact H'|].
  exact (countRealTypes_rows_perm _ _ _ _ Hperm H H').
Qed.

Lemma countRealTypes_perm_witness :
  exists entries',
    IndexTs.countRealTypes [VNull; VObject []] = Some entries' /\
    Permutation [("object", 1); ("null", 1)] entries'.
Proof.
  apply (countRealTypes_perm [VObject []; VNull] [VNull; VObject []]).
  - apply perm_swap.
  - reflexivity.
Defined.

(** ** Sorted tables are canonical *)

Lemma string_compare_refl (s : string) : String.compare s s = Eq.
Proof.
  induction s as [|c s IH]; simpl; [reflexivity|].
  now rewrite ascii_compare_refl.
Qed.

(** A list has at most one arrangement that is strongly sorted by an
    antisymmetric relation. *)
Lemma strongly_sorted_unique {A : Type} (R : A -> A -> Prop)
  (Hanti : forall a b, R a b -> R b a -> a = b) (l1 : list A) :
  forall l2 : list A,
    StronglySorted R l1 -> StronglySorted R l2 -> Permutation l1 l2 ->
    l1 = l2.
Proof.
  induction l1 as [|a l1 IH]; intros l2 H1 H2 Hperm.
  - symmetry. exact (Permutation_nil Hperm).
  - destruct l2 as [|b l2].
    { apply Permutation_sym, Permutation_nil in Hperm. discriminate. }
    inversion H1 as [|? ? Hs1 Hall1]; subst.
    inversion H2 as [|? ? Hs2 Hall2]; subst.
    rewrite Forall_forall in Hall1, Hall2.
    assert (E : a = b).
    { assert (Ha : In a (b :: l2))
        by (apply (Permutation_in _ Hperm); now left).
      assert (Hb : In b (a :: l1))
        by (apply (Permutation_in _ (Permutation_sym Hperm)); now left).
      destruct Ha as [->|Ha]; [reflexivity|].
      destruct Hb as [->|Hb]; [reflexivity|].
      apply Hanti; [now apply Hall1 | now apply Hall2]. }
    subst b. f_equal. apply IH; try assumption.
    exact (Permutation_cons_inv Hperm).
Qed.

Lemma label_lt_antisym (e1 e2 : string * nat) :
  label_lt e1 e2 -> label_lt e2 e1 -> e1 = e2.
Proof.
  intros H12 H21. pose proof (label_lt_trans _ _ _ H12 H21) as H.
  unfold label_lt in H. rewrite string_compare_refl in H. discriminate.
Qed.

(** X11.  In [src/unnamed/part_000], where the entries are sorted,
    [countRealTypes] does not depend on the order of the items. *)
Theorem part000_countRealTypes_perm (arr arr' : list Value) :
  Permutation arr arr' ->
  Part000.countRealTypes arr = Part000.countRealTypes arr'.
Proof.
  intros Hperm.
  destruct arr as [|x arr].
  { now rewrite (Permutation_nil Hperm). }
  destruct arr' as [|x' arr'].
  { apply Permutation_sym, Permutation_nil in Hperm. discriminate. }
  destruct (part000_countRealTypes_sorted (x :: arr))
    as (e & He & _ & _ & Hsorted); [discriminate|].
  destruct (part000_countRealTypes_sorted (x' :: arr'))
    as (e' & He' & _ & _ & Hsorted'); [discriminate|].
  rewrite He, He'. f_equal.
  apply (strongly_sorted_unique label_lt label_lt_antisym);
    try assumption.
  assert (Hrows : forall a t,
            a <> [] -> Part000.countRealTypes a = Part000.Entries t ->
            exists u, IndexTs.countRealTypes a = Some u /\ Permutation u t).
  { intros a t Ha Ht.
    exists (IndexTs.count_all (IndexTs.getRealTypesOfItems a) []).
    split; [apply countRealTypes_some; now split|].
    destruct a; [now elim Ha|]. injection Ht as <-.
    apply Permutation_sym, sort_entries_perm. }
  assert (Hne : x :: arr <> []) by discriminate.
  assert (Hne' : x' :: arr' <> []) by discriminate.
  destruct (Hrows _ _ Hne He) as (u & Hu & Hue).
  destruct (Hrows _ _ Hne' He') as (u' & Hu' & Hue').
  rewrite <- Hue, <- Hue'.
  exact (countRealTypes_rows_perm _ _ _ _ Hperm Hu Hu').
Qed.

Lemma part000_countRealTypes_perm_witness :
  Part000.countRealTypes [VObject []; VNull; VBoolean true]
  = Part000.countRealTypes [VBoolean true; VObject []; VNull].
Proof.
  apply (part000_countRealTypes_perm
           [VObject []; VNull; VBoolean true]
           [VBoolean true; VObject []; VNull]).
  apply Permutation_sym.
  change (Permutation ([VBoolean true] ++ [VObject []; VNull])
                      ([VObject []; VNull] ++ [VBoolean true])).
  apply Permutation_app_comm.
Defined.

(** ** Values that [sort] can convert, values without not-a-number *)

Section Parts.

Variable ok : Value -> bool.
Hypothesis ok_undefined : ok VUndefined = true.
Hypothesis ok_string : forall s, ok (VString s) = true.
Hypothesis ok_inherited : forall key, all_parts ok (inherited key) = true.

Lemma all_parts_item (items : list Value) (x : Value) :
  all_parts ok (VArray items) = true -> In x items -> all_parts ok x = true.
Proof.
  cbn [all_parts]. intros H. apply andb_prop in H as [_ H]. revert H.
  induction items as [|y items IH]; [intros _ []|].
  intros H [<-|Hx]; apply andb_prop in H as [Hy H]; [exact Hy | now apply IH].
Qed.

Lemma all_parts_prop (props : list (string * Value)) (p : string * Value) :
  all_parts ok (VObject props) = true -> In p props ->
  all_parts ok (snd p) = true.
Proof.
  cbn [all_parts]. intros H. apply andb_prop in H as [_ H]. revert H.
  induction props as [|q props IH]; [intros _ []|].
  intros H [<-|Hp]; apply andb_prop in H as [Hq H]; [exact Hq | now apply IH].
Qed.

Lemma characters_strings (s : string) (x : Value) :
  In x (characters s) -> exists c, x = VString c.
Proof.
  induction s as [|c s IH]; simpl; [intros []|].
  intros [<-|H]; [eauto | now apply IH].
Qed.

Lemma all_parts_spread (a : Value) (p : string * Value) :
  all_parts ok a = true -> In p (spread a) -> all_parts ok (snd p) = true.
Proof.
  intros Ha. destruct a; simpl spread; try (intros []).
  - intros H. apply index_props_from_In in H.
    exact (all_parts_item _ _ Ha H).
  - exact (all_parts_prop _ _ Ha).
  - intros H. apply index_props_from_In, characters_strings in H as (c & ->).
    cbn [all_parts]. now rewrite ok_string.
Qed.


Lemma all_parts_get (a : Value) (key : string) :
  all_parts ok a = true -> all_parts ok (get (spread a) key) = true.
Proof.
  intros Ha. unfold get.
  destruct (lookup (spread a) key) as [v|] eqn:E; [|apply ok_inherited].
  apply lookup_In in E. exact (all_parts_spread a (key, v) Ha E).
Qed.


End Parts.

Lemma inherited_all_parts (ok : Value -> bool) :
  (forall id source, ok (VFunction id source) = true) ->
  ok VUndefined = true -> ok (VObject []) = true ->
  forall key, all_parts ok (inherited key) = true.
Proof.
  intros Hf Hu Ho key.
  destruct (inherited_cases key) as [->|[(id & source & ->)| ->]];
    cbn [all_parts]; now rewrite ?Hf, ?Hu, ?Ho.
Qed.

Lemma inherited_sortable (key : string) : sortable (inherited key) = true.
Proof. apply inherited_all_parts; reflexivity. Qed.

Lemma inherited_nan_free (key : string) : nan_free (inherited key) = true.
Proof. apply inherited_all_parts; reflexivity. Qed.

Lemma sortable_item (items : list Value) (x : Value) :
  sortable (VArray items) = true -> In x items -> sortable x = true.
Proof. apply all_parts_item. Qed.

Lemma nan_free_item (items : list Value) (x : Value) :
  nan_free (VArray items) = true -> In x items -> nan_free x = true.
Proof. apply all_parts_item. Qed.

Lemma sortable_get (a : Value) (key : string) :
  sortable a = true -> sortable (get (spread a) key) = true.
Proof. apply all_parts_get; [reflexivity | exact inherited_sortable]. Qed.

Lemma nan_free_get (a : Value) (key : string) :
  nan_free a = true -> nan_free (get (spread a) key) = true.
Proof. apply all_parts_get; [reflexivity | exact inherited_nan_free]. Qed.


Lemma sortable_has_text (value : Value) :
  sortable value = true -> has_text value = true.
Proof.
  unfold sortable. destruct value; cbn [all_parts]; intros H;
    try reflexivity; now apply andb_prop in H as [H _].
Qed.

(** [ToString] returns on a value that [sort] can convert. *)
Lemma toString_sortable (bound : nat) :
  forall value : Value,
    depth value < bound -> sortable value = true ->
    exists s, toString value = Normal s.
Proof.
  induction bound as [|bound IH]; intros value Hd Hfree; [lia|].
  destruct value; try (simpl; eauto; fail).
  - discriminate (sortable_has_text _ Hfree).
  - assert (Hitems : forall x, In x items ->
                       depth x < bound /\ sortable x = true).
    { intros x Hx. split.
      - apply depth_item in Hx. lia.
      - exact (sortable_item items x Hfree Hx). }
    clear Hd Hfree. cbn [toString].
    assert (Heach : exists texts,
      (fix each (l : list Value) : Completion (list string) :=
         match l with
         | [] => Normal []
         | x :: rest =>
             s <- match x with
                  | VUndefined | VNull => Normal ""
                  | _ => toString x
                  end ;;
             ss <- each rest ;;
             Normal (s :: ss)
         end) items = Normal texts).
    { induction items as [|x items IHitems]; [eauto|].
      destruct (Hitems x (or_introl eq_refl)) as [Hdx Hfx].
      destruct (IH x Hdx Hfx) as (s & Hs).
      destruct IHitems as (texts & Htexts).
      { intros y Hy. apply Hitems. now right. }
      rewrite Htexts.
      destruct x; cbn [bind]; try rewrite Hs; cbn [bind]; eauto. }
    destruct Heach as (texts & ->). cbn [bind]. eauto.
  - apply sortable_has_text in Hfree. cbn [has_text] in Hfree.
    cbn [toString].
    destruct (lookup props "toString"); [discriminate | eauto].
Qed.

Lemma with_text_sortable (l : list Value) :
  (forall x, In x l -> sortable x = true) ->
  exists keyed, with_text l = Normal keyed.
Proof.
  induction l as [|x l IH]; intros H; simpl; [eauto|].
  destruct (toString_sortable (S (depth x)) x (Nat.lt_succ_diag_r _)
              (H x (or_introl eq_refl))) as (s & ->).
  destruct IH as (keyed & ->); [intros y Hy; apply H; now right|].
  cbn [bind]. eauto.
Qed.

(** [sort] returns on an array of values it can convert. *)
Lemma sort_sortable (items : list Value) :
  (forall x, In x items -> sortable x = true) ->
  exists sorted, sort items = Normal sorted.
Proof.
  intros H. unfold sort.
  destruct (filter (fun v => negb (is_undefined v)) items)
    as [|x [|y l]] eqn:E; try (eexists; reflexivity).
  destruct (with_text_sortable (x :: y :: l)) as (keyed & ->).
  - intros z Hz. apply H. rewrite <- E in Hz.
    now apply filter_In in Hz as [Hz _].
  - cbn [bind]. eauto.
Qed.




(** What the two conditions keep out: a stack too short, a symbol to sort,
    a record whose [toString] is no function. *)
Example areEqual_does_not_return :
  IndexTs.areEqual_rec 2 (VArray [VArray [VArray []]])
                         (VArray [VArray [VArray []]]) = Throw RangeError /\
  IndexTs.areEqual (VArray [VSymbol 0; num 1]) (VArray [])
  = Throw TypeError /\
  IndexTs.areEqual (VArray [VObject [("toString", num 1)]; VString "x"])
                   (VArray [])
  = Throw TypeError.
Proof. repeat split; reflexivity. Qed.

(** ** [areEqual] of a value with itself *)

Lemma strict_equal_refl (value : Value) :
  typeof value <> "object" \/ value = VNull ->
  nan_free value = true ->
  strict_equal value value = true.
Proof.
  intros [H| ->]; [|reflexivity].
  destruct value as [| |b|[|s|z]|s|z|i|i src|items|props|s|t|src fl| | |];
    try (now elim H); intros Hnan; try discriminate; cbn.
  - reflexivity.
  - apply Bool.eqb_reflx.
  - apply Bool.eqb_reflx.
  - apply Z.eqb_refl.
  - apply String.eqb_refl.
  - apply Z.eqb_refl.
  - apply Nat.eqb_refl.
  - apply Nat.eqb_refl.
Qed.

Lemma areEqual_rec_refl (stack : nat) :
  forall value : Value,
    depth value < stack ->
    sortable value = true -> nan_free value = true ->
    IndexTs.areEqual_rec stack value value = Normal true.
Proof.
  induction stack as [|stack IH]; intros value Hd Hsym Hnan; [lia|].
  assert (Hrecord :
    every (Object_keys (spread value)) (fun key _ =>
      IndexTs.areEqual_rec stack (get (spread value) key)
        (get (spread value) key))
    = Normal true).
  { apply every_from_true. intros k key Hk. apply nth_error_In in Hk.
    apply IH.
    - apply depth_get in Hk. lia.
    - now apply sortable_get.
    - now apply nan_free_get. }
  cbn [IndexTs.areEqual_rec].
  destruct (String.eqb (typeof value) "object" &&
            String.eqb (typeof value) "object" &&
            negb (is_null value) && negb (is_null value)) eqn:G.
  - destruct value; try exact Hrecord.
    destruct (sort_sortable items) as (sorted & E).
    { intros x Hx. exact (sortable_item _ _ Hsym Hx). }
    rewrite E. cbn [bind]. apply every_from_true. intros k x Hk.
    unfold at_index. cbn [Nat.add]. rewrite (nth_error_nth _ _ _ Hk).
    apply nth_error_In, (Permutation_in _ (sort_perm _ _ E)) in Hk.
    apply IH.
    + apply depth_item in Hk. lia.
    + exact (sortable_item _ _ Hsym Hk).
    + exact (nan_free_item _ _ Hnan Hk).
  - f_equal. apply strict_equal_refl; [|exact Hnan].
    destruct (strict_equal_only_off_objects _ _ G) as [H|H]; exact H.
Qed.

Lemma areEqual_refl (value : Value) :
  sortable value = true -> nan_free value = true ->
  IndexTs.areEqual value value = Normal true.
Proof.
  intros Hsym Hnan. apply areEqual_rec_refl; [lia | exact Hsym | exact Hnan].
Qed.

(** X13.  On a stack of [stack] nested calls, a value nested less deep than
    that, which holds no symbol, no record with a [toString] of its own and
    no not-a-number, is equal to itself for [areEqual]. *)
Theorem areEqual_reflexive (stack : nat) (value : Value) :
  depth value < stack ->
  sortable value = true -> nan_free value = true ->
  IndexTs.areEqual_rec stack value value = Normal true.
Proof. exact (areEqual_rec_refl stack value). Qed.

Lemma areEqual_reflexive_witness :
  IndexTs.areEqual_rec 3
    (VObject [("a", VArray [num 2; num 1; VUndefined]); ("b", VDate "now")])
    (VObject [("a", VArray [num 2; num 1; VUndefined]); ("b", VDate "now")])
  = Normal true.
Proof.
  apply (areEqual_reflexive 3
    (VObject [("a", VArray [num 2; num 1; VUndefined]); ("b", VDate "now")]));
    [repeat constructor | reflexivity | reflexivity].
Defined.

(** The conditions are needed: [NaN !== NaN], [sort] cannot compare
    symbols, nor a record whose [toString] is no function. *)
Example areEqual_not_reflexive :
  IndexTs.areEqual (VNumber NaN) (VNumber NaN) = Normal false /\
  IndexTs.areEqual (VArray [VNumber NaN]) (VArray [VNumber NaN])
  = Normal false /\
  IndexTs.areEqual (VArray [VSymbol 0; num 1]) (VArray [VSymbol 0; num 1])
  = Throw TypeError /\
  IndexTs.areEqual (VArray [VObject [("toString", num 1)]; VString "x"])
                   (VArray [VObject [("toString", num 1)]; VString "x"])
  = Throw TypeError.
Proof. repeat split; reflexivity. Qed.

(** ** The harness on tables *)

Lemma table_value_plain (entries : list (string * nat)) :
  sortable (table_value entries) = true /\
  nan_free (table_value entries) = true.
Proof.
  unfold sortable, nan_free, table_value. cbn [all_parts].
  induction entries as [|[label count] entries [IH1 IH2]];
    [split; reflexivity|].
  cbn [map is_symbol Number_isNaN negb andb] in *.
  cbn [entry_value all_parts is_symbol Number_isNaN negb andb fst snd].
  split; assumption.
Qed.

Lemma ts_value_plain (result : option (list (string * nat))) :
  sortable (ts_value result) = true /\ nan_free (ts_value result) = true.
Proof.
  destruct result as [entries|]; [apply table_value_plain | split; reflexivity].
Qed.

(** X14.  Whatever [countRealTypes] returns is equal to itself for
    [areEqual], the table and the [null] of the empty array alike. *)
Theorem countRealTypes_equals_itself (arr : list Value) :
  IndexTs.areEqual (ts_value (IndexTs.countRealTypes arr))
                   (ts_value (IndexTs.countRealTypes arr)) = Normal true.
Proof.
  destruct (ts_value_plain (IndexTs.countRealTypes arr)) as [Hsym Hnan].
  exact (areEqual_refl _ Hsym Hnan).
Qed.

Lemma stable_sort_of_sorted {A : Type} (l : list (string * A)) :
  Sorted (fun p q => String.leb (fst p) (fst q) = true) l ->
  stable_sort l = l.
Proof.
  induction 1 as [|x l Hl IH Hhd]; simpl; [reflexivity|].
  rewrite IH. destruct Hhd as [|y l Hxy]; simpl; [reflexivity|].
  now rewrite Hxy.
Qed.

(** Sorting sorted entries leaves them as they are. *)
Lemma sort_entries_idem (entries : list (string * nat)) :
  Part000.sort_entries (Part000.sort_entries entries)
  = Part000.sort_entries entries.
Proof.
  unfold Part000.sort_entries at 1 3.
  set (keyed := stable_sort
         (map (fun entry => (Part000.entry_text entry, entry)) entries)).
  assert (Hkeyed : map (fun entry => (Part000.entry_text entry, entry))
                     (map snd keyed) = keyed).
  { rewrite map_map. rewrite <- (map_id keyed) at 2. apply map_ext_in.
    intros p Hp.
    apply (Permutation_in _ (stable_sort_perm _)), in_map_iff in Hp
      as (e & <- & _).
    reflexivity. }
  unfold Part000.sort_entries. fold keyed. rewrite Hkeyed.
  f_equal. apply stable_sort_of_sorted, stable_sort_sorted.
Qed.

Lemma entry_value_plain (entry : string * nat) :
  sortable (entry_value entry) = true /\
  nan_free (entry_value entry) = true.
Proof. destruct entry. split; reflexivity. Qed.

(** A table and the same table sorted are equal for [areEqual]. *)
Lemma areEqual_table_sorted (entries : list (string * nat)) :
  IndexTs.areEqual (table_value entries)
                   (table_value (Part000.sort_entries entries)) = Normal true.
Proof.
  rewrite areEqual_unfold. unfold table_value.
  cbn [typeof is_null String.eqb Ascii.eqb Bool.eqb andb negb].
  rewrite !sort_entries_is_sort, sort_entries_idem. cbn [bind].
  apply every_from_true. intros k x Hk.
  unfold at_index. cbn [Nat.add]. rewrite (nth_error_nth _ _ _ Hk).
  apply nth_error_In, in_map_iff in Hk as (e & <- & _).
  destruct (entry_value_plain e) as [Hsym Hnan].
  exact (areEqual_refl _ Hsym Hnan).
Qed.

(** X15.  The harness cannot see that [src/index.ts] leaves the rows
    unsorted: for every non-empty array, [test] of its table against the
    sorted table of [src/unnamed/part_000] prints the [OK] line. *)
Theorem test_passes_unsorted (whatWeTest : string) (arr : list Value) :
  arr <> [] ->
  IndexTs.test whatWeTest (ts_value (IndexTs.countRealTypes arr))
                          (js_value (Part000.countRealTypes arr))
  = Normal [console_log ("[OK] " ++ whatWeTest ++ line_feed)%string].
Proof.
  intros Hne. destruct arr as [|x arr]; [now elim Hne|].
  change (IndexTs.countRealTypes (x :: arr))
    with (Some (IndexTs.count_all
                  (IndexTs.getRealTypesOfItems (x :: arr)) [])).
  change (Part000.countRealTypes (x :: arr))
    with (Part000.Entries (Part000.sort_entries
            (IndexTs.count_all (IndexTs.getRealTypesOfItems (x :: arr)) []))).
  unfold IndexTs.test. cbn [ts_value js_value].
  now rewrite areEqual_table_sorted.
Qed.

Lemma test_passes_unsorted_witness :
  IndexTs.test "Counted unique types are sorted"
    (ts_value (IndexTs.countRealTypes
       [VObject []; VNull; VBoolean true; VBoolean true; VBoolean false]))
    (js_value (Part000.countRealTypes
       [VObject []; VNull; VBoolean true; VBoolean true; VBoolean false]))
  = Normal [console_log
              ("[OK] " ++ "Counted unique types are sorted" ++ line_feed)%string].
Proof.
  apply (test_passes_unsorted "Counted unique types are sorted"
    [VObject []; VNull; VBoolean true; VBoolean true; VBoolean false]).
  discriminate.
Defined.




(** With the operands the other way round the test fails, and prints the
    six lines of a failure. *)
Example test_fails_empty_expected :
  IndexTs.test "t" (VArray [num 1]) (VArray [])
  = Normal [console_error "[FAIL] t";
            console_debug (VString "Expected:"); console_debug (VArray []);
            console_debug (VString "Actual:"); console_debug (VArray [num 1]);
            console_log ""].
Proof. reflexivity. Qed.

(** ** [areEqual] on arrays of strings *)

Lemma string_leb_trans (x y z : string) :
  String.leb x y = true -> String.leb y z = true -> String.leb x z = true.
Proof.
  unfold String.leb.
  destruct (String.compare x y) eqn:Exy; try discriminate;
    destruct (String.compare y z) eqn:Eyz; try discriminate; intros _ _.
  - apply String.compare_eq_iff in Exy. subst. now rewrite Eyz.
  - apply String.compare_eq_iff in Exy. subst. now rewrite Eyz.
  - apply String.compare_eq_iff in Eyz. subst. now rewrite Exy.
  - now rewrite (string_compare_lt_trans _ _ _ Exy Eyz).
Qed.

Lemma with_text_strings (l : list string) :
  with_text (map VString l)
  = Normal (map (fun p => (fst p, VString (snd p)))
              (map (fun s => (s, s)) l)).
Proof.
  induction l as [|s l IH]; [reflexivity|].
  cbn [map with_text toString bind]. now rewrite IH.
Qed.

Lemma filter_strings_defined (l : list string) :
  filter (fun v => negb (is_undefined v)) (map VString l) = map VString l /\
  filter is_undefined (map VString l) = [].
Proof.
  induction l as [|s l [IH1 IH2]]; [split; reflexivity|].
  simpl. now rewrite IH1, IH2.
Qed.

(** [sort()] on an array of strings sorts the strings. *)
Lemma sort_strings_is_sort (l : list string) :
  sort (map VString l) = Normal (map VString (sort_strings l)).
Proof.
  unfold sort. destruct (filter_strings_defined l) as [-> ->].
  destruct l as [|s1 [|s2 l]]; try reflexivity.
  rewrite with_text_strings. cbn [bind].
  rewrite stable_sort_payload.
  change (map VString (s1 :: s2 :: l))
    with (VString s1 :: VString s2 :: map VString l) at 1.
  cbv iota. rewrite app_nil_r.
  unfold sort_strings. now rewrite !map_map.
Qed.

Lemma sort_strings_perm (l : list string) : Permutation (sort_strings l) l.
Proof.
  unfold sort_strings. rewrite stable_sort_perm, map_map. simpl.
  now rewrite map_id.
Qed.

Lemma sort_strings_sorted (l : list string) :
  StronglySorted (fun x y => String.leb x y = true) (sort_strings l).
Proof.
  apply Sorted_StronglySorted.
  { intros x y z. apply string_leb_trans. }
  apply (sorted_map_snd (fun s => s)); [|apply stable_sort_sorted].
  apply (Permutation_Forall (Permutation_sym (stable_sort_perm _))).
  apply Forall_forall. intros p Hp. now apply in_map_iff in Hp as (s & <- & _).
Qed.

Lemma sort_strings_canonical (l l' : list string) :
  Permutation l l' -> sort_strings l = sort_strings l'.
Proof.
  intros H.
  apply (strongly_sorted_unique (fun x y => String.leb x y = true)
           String.leb_antisym); try apply sort_strings_sorted.
  rewrite !sort_strings_perm. exact H.
Qed.

Lemma prefix_positions {A : Type} (l1 : list A) :
  forall l2 : list A,
    (forall k x, nth_error l1 k = Some x -> nth_error l2 k = Some x) <->
    exists rest, l2 = l1 ++ rest.
Proof.
  induction l1 as [|a l1 IH]; intros l2.
  - split; [intros _; now exists l2 | intros _ [|k] x; discriminate].
  - split.
    + intros H. destruct l2 as [|b l2]; [discriminate (H 0 a eq_refl)|].
      generalize (H 0 a eq_refl). intros E. injection E as ->.
      destruct (proj1 (IH l2)) as (rest & ->).
      { intros k x Hk. exact (H (S k) x Hk). }
      now exists rest.
    + intros (rest & ->) [|k] x Hk; [exact Hk|].
      simpl in *. apply (proj2 (IH (l1 ++ rest))); [now exists rest | exact Hk].
Qed.

Lemma areEqual_string (s : string) (l : list string) (k : nat) :
  IndexTs.areEqual (VString s) (at_index (map VString l) k) = Normal true
  <-> nth_error l k = Some s.
Proof.
  unfold at_index.
  destruct (nth_error l k) as [t|] eqn:E.
  - rewrite (nth_error_nth _ _ _ (map_nth_error VString _ _ E)).
    rewrite areEqual_off_objects by (left; discriminate). cbn.
    destruct (String.eqb_spec s t) as [->|Hne]; split; try reflexivity;
      try discriminate.
    intros H. injection H as ->. now elim Hne.
  - rewrite nth_overflow
      by (rewrite length_map; now apply nth_error_None).
    rewrite areEqual_off_objects by (left; discriminate).
    split; discriminate.
Qed.

(** Arrays of strings: equal when the first, sorted, is the beginning of
    the second, sorted. *)
Lemma areEqual_strings (xs ys : list string) :
  IndexTs.areEqual (VArray (map VString xs)) (VArray (map VString ys))
  = Normal true
  <-> exists rest, sort_strings ys = sort_strings xs ++ rest.
Proof.
  rewrite areEqual_unfold.
  cbn [typeof is_null String.eqb Ascii.eqb Bool.eqb andb negb].
  rewrite !sort_strings_is_sort. cbn [bind].
  unfold every. rewrite every_from_true, <- prefix_positions. split.
  - intros H k s Hk. apply areEqual_string.
    exact (H k _ (map_nth_error VString _ _ Hk)).
  - intros H k x Hk.
    destruct (nth_error (sort_strings xs) k) as [s|] eqn:E.
    + rewrite (map_nth_error VString _ _ E) in Hk. injection Hk as <-.
      apply areEqual_string. now apply H.
    + apply nth_error_None in E.
      assert (Hsome : nth_error (map VString (sort_strings xs)) k <> None)
        by congruence.
      apply nth_error_Some in Hsome. rewrite length_map in Hsome. lia.
Qed.

(** X17.  On arrays of strings [areEqual] is [true] exactly when the first
    array, sorted, is the beginning of the second, sorted; what the second
    holds beyond that is not looked at. *)
Theorem areEqual_strings_prefix (xs ys : list string) :
  IndexTs.areEqual (VArray (map VString xs)) (VArray (map VString ys))
  = Normal true
  <-> exists rest, sort_strings ys = sort_strings xs ++ rest.
Proof. exact (areEqual_strings xs ys). Qed.

(** X18.  On two arrays of strings of the same length [areEqual] is [true]
    exactly when one is a reordering of the other. *)
Theorem areEqual_strings_same_length (xs ys : list string) :
  List.length xs = List.length ys ->
  (IndexTs.areEqual (VArray (map VString xs)) (VArray (map VString ys))
   = Normal true
   <-> Permutation xs ys).
Proof.
  intros Hlen. rewrite areEqual_strings. split.
  - intros (rest & E).
    assert (Hrest : rest = []).
    { apply (f_equal (@List.length string)) in E.
      rewrite length_app in E.
      rewrite (Permutation_length (sort_strings_perm ys)) in E.
      rewrite (Permutation_length (sort_strings_perm xs)) in E.
      destruct rest; [reflexivity | simpl in E; lia]. }
    subst rest. rewrite app_nil_r in E.
    rewrite <- (sort_strings_perm xs), <- (sort_strings_perm ys).
    now rewrite E.
  - intros Hperm. exists []. rewrite app_nil_r.
    symmetry. now apply sort_strings_canonical.
Qed.

Lemma areEqual_strings_same_length_witness :
  IndexTs.areEqual (VArray (map VString ["b"; "a"; "c"]))
                   (VArray (map VString ["c"; "b"; "a"])) = Normal true
  <-> Permutation ["b"; "a"; "c"] ["c"; "b"; "a"].
Proof.
  apply (areEqual_strings_same_length ["b"; "a"; "c"] ["c"; "b"; "a"]).
  reflexivity.
Defined.

(** Order is not ignored across types: [1] and ["1"] have one text, so
    [sort] leaves them as they come. *)
Example areEqual_same_text :
  IndexTs.areEqual (VArray [num 1; VString "1"]) (VArray [VString "1"; num 1])
  = Normal false /\
  IndexTs.areEqual (VArray [num 1; VString "1"]) (VArray [num 1; VString "1"])
  = Normal true.
Proof. split; reflexivity. Qed.

(** ** Records: the keys of the second operand *)

Lemma lookup_app {A : Type} (obj extra : list (string * A)) (key : string) :
  lookup (obj ++ extra) key
  = match lookup obj key with
    | Some v => Some v
    | None => lookup extra key
    end.
Proof.
  induction obj as [|[k v] obj IH]; simpl; [reflexivity|].
  now destruct (String.eqb k key).
Qed.

(** X19.  Keys that only the second record has are not looked at: adding
    properties to [b] under keys that [a] does not have leaves
    [areEqual(a, b)] as it was. *)
Theorem areEqual_ignores_other_keys (a : Value)
  (props extra : list (string * Value)) :
  (forall key, In key (Object_keys (spread a)) -> lookup extra key = None) ->
  IndexTs.areEqual a (VObject (props ++ extra))
  = IndexTs.areEqual a (VObject props).
Proof.
  intros Hextra.
  assert (Hrecord :
    every (Object_keys (spread a)) (fun value _ =>
      IndexTs.areEqual (get (spread a) value)
        (get (spread (VObject (props ++ extra))) value))
    = every (Object_keys (spread a)) (fun value _ =>
      IndexTs.areEqual (get (spread a) value)
        (get (spread (VObject props)) value))).
  { apply every_from_ext. intros key _ Hkey. f_equal.
    unfold get. cbn [spread]. rewrite lookup_app, (Hextra key Hkey).
    now destruct (lookup props key). }
  rewrite !areEqual_unfold.
  destruct a; try reflexivity; exact Hrecord.
Qed.

Lemma areEqual_ignores_other_keys_witness :
  IndexTs.areEqual (VObject [("x", num 1)])
                   (VObject ([("x", num 1)] ++ [("y", VNull)]))
  = IndexTs.areEqual (VObject [("x", num 1)]) (VObject [("x", num 1)]).
Proof.
  apply (areEqual_ignores_other_keys (VObject [("x", num 1)])
           [("x", num 1)] [("y", VNull)]).
  intros key [<-|[]]. reflexivity.
Defined.

(** ** No coercion *)

(** X20.  Values that [areEqual] finds equal have the same [typeof]: a
    string never equals a number, nor a primitive an object. *)
Theorem areEqual_same_typeof (a b : Value) :
  IndexTs.areEqual a b = Normal true ->
  IndexTs.getType a = IndexTs.getType b.
Proof.
  rewrite areEqual_unfold. unfold IndexTs.getType.
  destruct a; destruct b; try reflexivity; cbn; intros H; discriminate H.
Qed.

Lemma areEqual_same_typeof_witness :
  IndexTs.getType (VArray []) = IndexTs.getType (VObject []).
Proof.
  apply (areEqual_same_typeof (VArray []) (VObject [])). reflexivity.
Defined.

(** The real types may differ all the same. *)
Example areEqual_other_real_type :
  IndexTs.areEqual (VArray []) (VDate "now") = Normal true /\
  IndexTs.getRealType (VArray []) <> IndexTs.getRealType (VDate "now").
Proof. split; [reflexivity | discriminate]. Qed.

(** ** Counting an array in two parts *)

Lemma count_of_table (arr : list Value) (entries : list (string * nat))
  (label : string) :
  IndexTs.countRealTypes arr = Some entries ->
  IndexTs.count_of entries label
  = count_occ string_dec (IndexTs.getRealTypesOfItems arr) label.
Proof.
  intros H. apply countRealTypes_some in H as (_ & ->).
  destruct (count_all_spec (IndexTs.getRealTypesOfItems arr) []
              (NoDup_nil _)) as (_ & _ & _ & H).
  exact (H label).
Qed.

(** X21.  Counts add up: the count a label has in the table of [arr ++ arr']
    is the sum of its counts in the tables of [arr] and of [arr'], a label
    without a row counting for 0. *)
Theorem countRealTypes_app (arr arr' : list Value)
  (entries entries' both : list (string * nat)) (label : string) :
  IndexTs.countRealTypes arr = Some entries ->
  IndexTs.countRealTypes arr' = Some entries' ->
  IndexTs.countRealTypes (arr ++ arr') = Some both ->
  IndexTs.count_of both label
  = IndexTs.count_of entries label + IndexTs.count_of entries' label.
Proof.
  intros H H' Hboth.
  rewrite (count_of_table _ _ label H), (count_of_table _ _ label H'),
    (count_of_table _ _ label Hboth).
  unfold IndexTs.getRealTypesOfItems. rewrite map_app.
  apply count_occ_app.
Qed.

Lemma countRealTypes_app_witness :
  IndexTs.count_of [("boolean", 2); ("null", 1)] "boolean"
  = IndexTs.count_of [("boolean", 1); ("null", 1)] "boolean"
    + IndexTs.count_of [("boolean", 1)] "boolean".
Proof.
  apply (countRealTypes_app [VBoolean true; VNull] [VBoolean false]);
    reflexivity.
Defined.

(** X22.  In [src/unnamed/part_000] the table of a non-empty array is in
    ascending order of its labels, has no label twice, and its counts sum
    to the length of the array. *)
Theorem part000_table (arr : list Value) :
  arr <> [] ->
  exists entries,
    Part000.countRealTypes arr = Part000.Entries entries /\
    total entries = List.length arr /\
    NoDup (map fst entries) /\
    sorted_by_label entries.
Proof. exact (part000_countRealTypes_sorted arr). Qed.

Lemma part000_table_witness :
  exists entries,
    Part000.countRealTypes
      [VObject []; VNull; VBoolean true; VBoolean true; VBoolean false]
    = Part000.Entries entries /\
    total entries
    = List.length
        [VObject []; VNull; VBoolean true; VBoolean true; VBoolean false] /\
    NoDup (map fst entries) /\
    sorted_by_label entries.
Proof.
  apply (part000_table
    [VObject []; VNull; VBoolean true; VBoolean true; VBoolean false]).
  discriminate.
Defined.
